(** * kvapi: an in-memory key-value service behind an IP filter

    A shallow embedding of [main.go]: the bounded store
    ([KeyValueStore]), the access filter ([accessMiddleware] and the
    prologue of [handleUDPCommand]), the HTTP handlers registered in
    [main] and the UDP command handler with its receive loop.

    Conventions.
    - A Go [string] is a byte sequence: [string] of Rocq, one [ascii]
      per byte, [len] its byte length as an integer.
    - [map[string]string] is a [gmap string string]; the read/write lock
      only serialises calls, so every method is a function of the store
      it finds and returns the store it leaves.
    - [logMessage] only prints on the console and is left out.
    - [time.Now().Format(...)] is the argument [now] of a handler. *)

From Stdlib Require Import ZArith Ascii String List Lia.
From stdpp Require Import base gmap strings list fin_maps.

Local Open Scope string_scope.
Local Open Scope Z_scope.

(** ** Constants *)

Definition MaxKeySize : Z := 255.
Definition MaxValueSize : Z := 1048576.
Definition MaxKeyCount : Z := 100.

Definition StatusOK : Z := 200.
Definition StatusBadRequest : Z := 400.
Definition StatusForbidden : Z := 403.
Definition StatusNotFound : Z := 404.
Definition StatusMethodNotAllowed : Z := 405.
Definition StatusInternalServerError : Z := 500.

(** [len([]byte(s))] *)
Definition len (s : string) : Z := Z.of_nat (String.length s).

(** Two's complement wrap-around of [int64] arithmetic. *)
Definition wrap64 (z : Z) : Z := (z + 2 ^ 63) mod 2 ^ 64 - 2 ^ 63.

(** ** The store *)

Module Store.

(** The three [fmt.Errorf] results of [Set_]. *)
Inductive SetError : Type :=
| KeyTooLarge
| ValueTooLarge
| CapacityExceeded.

(** [err.Error()], with [%d] already expanded. *)
Definition error_text (e : SetError) : string :=
  match e with
  | KeyTooLarge => "key exceeds maximum size of 255 bytes"
  | ValueTooLarge => "value exceeds maximum size of 1048576 bytes"
  | CapacityExceeded => "maximum number of keys (100) reached"
  end.

Record StatusInfo : Type := mkStatusInfo {
  KeyCount : Z;
  MemoryUsage : Z
}.

(** [NewKeyValueStore] *)
Definition NewKeyValueStore : gmap string string := ∅.

(** [len(kvs.store)] *)
Definition count (st : gmap string string) : Z := Z.of_nat (size st).

(** [Get]: the stored value and [true], or the zero string and [false]. *)
Definition Get (key : string) (st : gmap string string) : string * bool :=
  match st !! key with
  | Some value => (value, true)
  | None => ("", false)
  end.

(** [Set] ([Set] is reserved in Rocq, hence the underscore): the store
    it leaves and the error it returns ([None] is Go's [nil]). The
    checks come in the order of the source. *)
Definition Set_ (key value : string) (st : gmap string string)
  : gmap string string * option SetError :=
  if MaxKeySize <? len key then (st, Some KeyTooLarge)
  else if MaxValueSize <? len value then (st, Some ValueTooLarge)
  else
    let exists_ := bool_decide (is_Some (st !! key)) in
    if negb exists_ && (MaxKeyCount <=? count st)
    then (st, Some CapacityExceeded)
    else (<[key := value]> st, None).

(** [GetStatus]: the loop adds [int64(len(k) + len(v))] to an [int64]
    accumulator. *)
Definition GetStatus (st : gmap string string) : StatusInfo :=
  {| KeyCount := count st;
     MemoryUsage :=
       map_fold (λ k v totalSize, wrap64 (totalSize + wrap64 (len k + len v)))
                0 st |}.

(** The sum the status is meant to report, over the integers. *)
Definition total_bytes (st : gmap string string) : Z :=
  foldr Z.add 0 (map (λ kv, len kv.1 + len kv.2) (map_to_list st)).

(** The operations a caller can perform, and a run of them. *)
Inductive Op : Type :=
| OpGet (key : string)
| OpSet (key value : string)
| OpStatus.

Definition step (o : Op) (st : gmap string string) : gmap string string :=
  match o with
  | OpGet _ => st
  | OpSet key value => fst (Set_ key value st)
  | OpStatus => st
  end.

Definition run (ops : list Op) (st : gmap string string) : gmap string string :=
  fold_left (λ s o, step o s) ops st.

(** The invariant of section 3 of the specification. *)
Definition bounded (st : gmap string string) : Prop :=
  map_Forall (λ k v, len k ≤ MaxKeySize ∧ len v ≤ MaxValueSize) st
  ∧ count st ≤ MaxKeyCount.

End Store.

(** ** Responses *)

(** [APIResponse]. [Key], [Value] and [Data] are [omitempty]: the JSON
    carries them exactly when they differ from the zero value. *)
Record APIResponse : Type := mkAPIResponse {
  Status : Z;
  Message : string;
  Key : string;
  Value : string;
  Data : option Store.StatusInfo;
  TimeStamp : string
}.

Definition carries_key (r : APIResponse) : Prop := Key r ≠ "".
Definition carries_value (r : APIResponse) : Prop := Value r ≠ "".

(** What an HTTP handler leaves on the connection: a status line with a
    JSON body, or a connection hijacked and closed with nothing written.
    [json.NewEncoder(w).Encode] cannot fail on an [APIResponse], so the
    plain-text fallback of [sendJSONResponse] has no case. *)
Inductive HTTPResult : Type :=
| Written (code : Z) (body : APIResponse)
| ConnClosed.

(** What the UDP loop hands to [conn.WriteToUDP]: the bytes and the
    destination. [None] is the nil slice, a datagram of length zero. *)
Inductive UDPEvent : Type :=
| WriteToUDP (payload : option APIResponse) (clientAddr : string).

(** [*http.Request], the fields the handlers read. [Query] is
    [r.URL.Query()], the decoded pairs in their order. *)
Record Request : Type := mkRequest {
  Method : string;
  Path : string;
  Query : list (string * string);
  RemoteAddr : string
}.

(** [url.Values.Get]: the first value of the name, or the empty string. *)
Fixpoint query_get (name : string) (q : list (string * string)) : string :=
  match q with
  | [] => ""
  | (n, v) :: rest => if String.eqb n name then v else query_get name rest
  end.

(** [strings.Join(parts, sep)] *)
Definition Join (parts : list string) (sep : string) : string :=
  String.concat sep parts.

(** [strings.Split(s, ":")[0]]: the bytes before the first colon. *)
Fixpoint before_colon (s : string) : string :=
  match s with
  | EmptyString => EmptyString
  | String c rest =>
      if Ascii.eqb c ":"%char then EmptyString else String c (before_colon rest)
  end.

(** ** The library functions the handlers call

    The handlers are written against the packages [net] and [strings].
    Their functions are taken as an interface, so that what is proved of
    the handlers holds for the real ones. *)
Class GoLib : Type := mkGoLib {
  IP : Type;                                         (* a non-nil net.IP *)
  IPNet : Type;                                      (* net.IPNet *)
  ParseIP : string → option IP;                      (* nil is None *)
  Contains : IPNet → IP → bool;
  SplitHostPort : string → option (string * string); (* an error is None *)
  Fields : string → list string;
  ToUpper : string → string;
  TrimSpace : string → string
}.

Section Server.
Context {lib : GoLib}.

Record AccessControl : Type := mkAccessControl {
  AllowedCIDR : option IPNet;
  FirewallMode : string
}.

(** [n.Contains(ip)] for an [ip] that may be nil: the length test of
    [Contains] fails on nil. *)
Definition contains_nilable (n : IPNet) (ip : option IP) : bool :=
  match ip with
  | Some i => Contains n i
  | None => false
  end.

(** [getIPFromRequest] *)
Definition getIPFromRequest (r : Request) : option IP :=
  match SplitHostPort (RemoteAddr r) with
  | None => None
  | Some (ipStr, _) => ParseIP ipStr
  end.

(** [sendJSONResponse] *)
Definition sendJSONResponse (now : string) (status : Z) (message key value : string)
    (data : option Store.StatusInfo) : HTTPResult :=
  let populated := (status =? StatusOK) && negb (String.eqb key "") in
  Written status
    {| Status := status;
       Message := message;
       Key := if populated then key else "";
       Value := if populated then value else "";
       Data := data;
       TimeStamp := now |}.

(** A handler serves a request on a store. *)
Definition HandlerFunc : Type :=
  string → Request → gmap string string → gmap string string * HTTPResult.

(** [accessMiddleware]. The server is started by [http.ListenAndServe]:
    its response writers are hijackers, so under DROP the connection is
    taken over and closed before anything is written. *)
Definition accessMiddleware (ac : AccessControl) (next : HandlerFunc) : HandlerFunc :=
  λ now r st,
    match AllowedCIDR ac with
    | None => next now r st
    | Some cidr =>
        match getIPFromRequest r with
        | None =>
            (st, sendJSONResponse now StatusInternalServerError
                   "Failed to parse client IP" "" "" None)
        | Some ip =>
            if negb (Contains cidr ip) then
              if String.eqb (FirewallMode ac) "DROP" then (st, ConnClosed)
              else if String.eqb (FirewallMode ac) "REJECT" then
                (st, sendJSONResponse now StatusForbidden
                       "Connection rejected by firewall: Your IP is not in the allowed range"
                       "" "" None)
              else
                (st, sendJSONResponse now StatusForbidden
                       "Access denied: Your IP is not in the allowed range"
                       "" "" None)
            else next now r st
        end
    end.

(** The four handlers registered in [main]. *)
Definition pingHandler : HandlerFunc :=
  λ now r st,
    if negb (String.eqb (Method r) "GET") then
      (st, sendJSONResponse now StatusMethodNotAllowed "Method not allowed" "" "" None)
    else (st, sendJSONResponse now StatusOK "PONG" "ping" "PONG" None).

Definition statusHandler : HandlerFunc :=
  λ now r st,
    if negb (String.eqb (Method r) "GET") then
      (st, sendJSONResponse now StatusMethodNotAllowed "Method not allowed" "" "" None)
    else
      let status := Store.GetStatus st in
      (st, sendJSONResponse now StatusOK "Status retrieved successfully"
             "status" "" (Some status)).

Definition getHandler : HandlerFunc :=
  λ now r st,
    if negb (String.eqb (Method r) "GET") then
      (st, sendJSONResponse now StatusMethodNotAllowed "Method not allowed" "" "" None)
    else
      let key := query_get "k" (Query r) in
      if String.eqb key "" then
        (st, sendJSONResponse now StatusBadRequest "Missing key parameter" "" "" None)
      else
        let '(value, exists_) := Store.Get key st in
        if negb exists_ then
          (st, sendJSONResponse now StatusNotFound
                 ("Key '" ++ key ++ "' not found") key "" None)
        else
          (st, sendJSONResponse now StatusOK "Key retrieved successfully" key value None).

Definition setHandler : HandlerFunc :=
  λ now r st,
    if negb (String.eqb (Method r) "POST") && negb (String.eqb (Method r) "PUT") then
      (st, sendJSONResponse now StatusMethodNotAllowed "Method not allowed" "" "" None)
    else
      let key := query_get "k" (Query r) in
      let value := query_get "v" (Query r) in
      if String.eqb key "" then
        (st, sendJSONResponse now StatusBadRequest "Missing key parameter" "" "" None)
      else if String.eqb value "" then
        (st, sendJSONResponse now StatusBadRequest "Missing value parameter" "" "" None)
      else
        match Store.Set_ key value st with
        | (st', Some err) =>
            (st', sendJSONResponse now StatusBadRequest (Store.error_text err) key "" None)
        | (st', None) =>
            (st', sendJSONResponse now StatusOK "Key set successfully" key value None)
        end.

(** [notFoundHandler] *)
Definition notFoundHandler : HandlerFunc :=
  λ now r st,
    (st, sendJSONResponse now StatusNotFound
           ("Route '" ++ Path r ++ "' not found") "" "" None).

(** [mux.Handler(r)] for the four patterns of [main], none of which
    ends in a slash: the handler of the pattern equal to the path, or
    no pattern. *)
Definition mux_Handler (ac : AccessControl) (r : Request) : option HandlerFunc :=
  if String.eqb (Path r) "/api/ping" then Some (accessMiddleware ac pingHandler)
  else if String.eqb (Path r) "/api/status" then Some (accessMiddleware ac statusHandler)
  else if String.eqb (Path r) "/api/get" then Some (accessMiddleware ac getHandler)
  else if String.eqb (Path r) "/api/set" then Some (accessMiddleware ac setHandler)
  else None.

(** [handler], the function given to [http.ListenAndServe]. *)
Definition handler (ac : AccessControl) : HandlerFunc :=
  λ now r st,
    match mux_Handler ac r with
    | None => notFoundHandler now r st
    | Some h => h now r st
    end.

(** A response of the UDP handler: the fields set in the literal, the
    others zero. *)
Definition udpResponse (now : string) (status : Z) (message key value : string)
    (data : option Store.StatusInfo) : option APIResponse :=
  Some {| Status := status; Message := message; Key := key; Value := value;
          Data := data; TimeStamp := now |}.

(** [handleUDPCommand]; [addr] stands for [addr.String()]. *)
Definition handleUDPCommand (now command addr : string) (st : gmap string string)
    (ac : AccessControl) : gmap string string * option APIResponse :=
  let ipStr := before_colon addr in
  let ip := ParseIP ipStr in
  if match AllowedCIDR ac with
     | Some cidr => negb (contains_nilable cidr ip)
     | None => false
     end
  then
    if String.eqb (FirewallMode ac) "DROP" then (st, None)
    else if String.eqb (FirewallMode ac) "REJECT" then
      (st, udpResponse now StatusForbidden
             "Connection rejected by firewall: Your IP is not in the allowed range"
             "" "" None)
    else
      (st, udpResponse now StatusForbidden
             "Access denied: Your IP is not in the allowed range" "" "" None)
  else
    let parts := Fields command in
    if Z.of_nat (length parts) =? 0 then
      (st, udpResponse now StatusBadRequest "Empty command" "" "" None)
    else
      let action := ToUpper (nth 0 parts "") in
      if String.eqb action "PING" then
        (st, udpResponse now StatusOK "PONG" "ping" "PONG" None)
      else if String.eqb action "STATUS" then
        let status := Store.GetStatus st in
        (st, udpResponse now StatusOK "Status retrieved successfully"
               "status" "" (Some status))
      else if String.eqb action "GET" then
        if Z.of_nat (length parts) <? 2 then
          (st, udpResponse now StatusBadRequest "Missing key parameter" "" "" None)
        else
          let key := nth 1 parts "" in
          let '(value, exists_) := Store.Get key st in
          if negb exists_ then
            (st, udpResponse now StatusNotFound
                   ("Key '" ++ key ++ "' not found") key "" None)
          else
            (st, udpResponse now StatusOK "Key retrieved successfully" key value None)
      else if String.eqb action "SET" then
        if Z.of_nat (length parts) <? 2 then
          (st, udpResponse now StatusBadRequest "Missing key parameter" "" "" None)
        else if Z.of_nat (length parts) <? 3 then
          (st, udpResponse now StatusBadRequest "Missing value parameter" "" "" None)
        else
          let key := nth 1 parts "" in
          let value := Join (drop 2 parts) " " in
          match Store.Set_ key value st with
          | (st', Some err) =>
              (st', udpResponse now StatusBadRequest (Store.error_text err) key "" None)
          | (st', None) =>
              (st', udpResponse now StatusOK "Key set successfully" key value None)
          end
      else
        (st, udpResponse now StatusBadRequest ("Unknown command: " ++ action) "" "" None).

(** One turn of the loop of [startUDPServer] on a datagram that was
    read: the buffer keeps the first 8192 bytes, the command is
    trimmed and handled, and the response is written back. *)
Definition serveDatagram (now data clientAddr : string) (st : gmap string string)
    (ac : AccessControl) : gmap string string * list UDPEvent :=
  let command := String.substring 0 (Z.to_nat 8192) data in
  let command := TrimSpace command in
  let '(st', response) := handleUDPCommand now command clientAddr st ac in
  (st', [WriteToUDP response clientAddr]).

End Server.

(** ** An instance of the library for ASCII text and IPv4 addresses

    On ASCII input [strings.Fields], [strings.ToUpper] and
    [strings.TrimSpace] are the functions below; the address functions
    cover dotted-quad hosts. The instance is used to run the handlers on
    concrete requests. *)
Module Plain.

Definition byte_of (c : ascii) : Z := Z.of_nat (nat_of_ascii c).

(** The ASCII white space of [unicode.IsSpace]. *)
Definition is_space (c : ascii) : bool :=
  let n := byte_of c in ((9 <=? n) && (n <=? 13)) || (n =? 32).

Fixpoint fields_from (word : option string) (s : string) : list string :=
  match s with
  | EmptyString => match word with Some w => [w] | None => [] end
  | String c rest =>
      if is_space c then
        match word with
        | Some w => w :: fields_from None rest
        | None => fields_from None rest
        end
      else
        fields_from (Some (match word with
                           | Some w => w ++ String c EmptyString
                           | None => String c EmptyString
                           end)) rest
  end.

Definition fields (s : string) : list string := fields_from None s.

Definition upper_ascii (c : ascii) : ascii :=
  let n := byte_of c in
  if (97 <=? n) && (n <=? 122) then ascii_of_nat (Z.to_nat (n - 32)) else c.

Fixpoint to_upper (s : string) : string :=
  match s with
  | EmptyString => EmptyString
  | String c rest => String (upper_ascii c) (to_upper rest)
  end.

Fixpoint trim_left (s : string) : string :=
  match s with
  | EmptyString => EmptyString
  | String c rest => if is_space c then trim_left rest else s
  end.

Fixpoint rev_string (acc s : string) : string :=
  match s with
  | EmptyString => acc
  | String c rest => rev_string (String c acc) rest
  end.

Definition trim_space (s : string) : string :=
  rev_string EmptyString (trim_left (rev_string EmptyString (trim_left s))).

(** Splitting at every occurrence of a byte. *)
Fixpoint split_at (sep : ascii) (word s : string) : list string :=
  match s with
  | EmptyString => [word]
  | String c rest =>
      if Ascii.eqb c sep then word :: split_at sep EmptyString rest
      else split_at sep (word ++ String c EmptyString) rest
  end.

Fixpoint decimal (acc : Z) (s : string) : option Z :=
  match s with
  | EmptyString => Some acc
  | String c rest =>
      let n := byte_of c in
      if (48 <=? n) && (n <=? 57) then decimal (acc * 10 + (n - 48)) rest else None
  end.

(** One field of a dotted quad: one to three digits, no leading zero,
    at most 255. *)
Definition octet (s : string) : option Z :=
  match s with
  | EmptyString => None
  | String c rest =>
      if Ascii.eqb c "0"%char && negb (String.eqb rest "") then None
      else if 3 <? len s then None
      else match decimal 0 s with
           | Some n => if n <=? 255 then Some n else None
           | None => None
           end
  end.

(** An address is its 32-bit number. *)
Definition parse_ip (s : string) : option Z :=
  match split_at "."%char EmptyString s with
  | [a; b; c; d] =>
      match octet a, octet b, octet c, octet d with
      | Some a, Some b, Some c, Some d => Some (((a * 256 + b) * 256 + c) * 256 + d)
      | _, _, _, _ => None
      end
  | _ => None
  end.

(** A network is its number and the length of its prefix. *)
Definition contains (n : Z * Z) (ip : Z) : bool :=
  Z.shiftr ip (32 - snd n) =? Z.shiftr (fst n) (32 - snd n).

(** [host:port] with a host free of colons. *)
Definition split_host_port (s : string) : option (string * string) :=
  match split_at ":"%char EmptyString s with
  | [host; port] => Some (host, port)
  | _ => None
  end.

Definition lib : GoLib :=
  {| IP := Z; IPNet := Z * Z;
     ParseIP := parse_ip; Contains := contains;
     SplitHostPort := split_host_port;
     Fields := fields; ToUpper := to_upper; TrimSpace := trim_space |}.

(** The network 127.0.0.1/32 and the three modes on it. *)
Definition localhost_only : Z * Z := (2130706433, 32).

Definition policy (mode : string) : @AccessControl lib :=
  @mkAccessControl lib (Some localhost_only) mode.

Definition open_policy : @AccessControl lib :=
  @mkAccessControl lib None "ACCEPT".

(** A store of [n] keys of one byte each, and a key of [n] bytes. *)
Definition byte_key (n : nat) : string := String (ascii_of_nat n) EmptyString.

Definition fill_ops (n : nat) : list Store.Op :=
  map (λ i, Store.OpSet (byte_key i) "x") (seq 0 n).

Definition filled (n : nat) : gmap string string :=
  Store.run (fill_ops n) Store.NewKeyValueStore.

Fixpoint long_key (n : nat) : string :=
  match n with
  | O => EmptyString
  | S m => String "k"%char (long_key m)
  end.

(** A value one byte over the limit. *)
Definition big_value : string := long_key (Z.to_nat 1048577).

End Plain.

(** ** Vocabulary of the statements *)

Module Outcome.
Import Store.

(** Every way out of [Set_]. *)
Inductive SetSpec (key value : string) (st : gmap string string)
  : gmap string string * option SetError → Prop :=
| set_key_too_large :
    MaxKeySize < len key →
    SetSpec key value st (st, Some KeyTooLarge)
| set_value_too_large :
    len key ≤ MaxKeySize → MaxValueSize < len value →
    SetSpec key value st (st, Some ValueTooLarge)
| set_full :
    len key ≤ MaxKeySize → len value ≤ MaxValueSize →
    st !! key = None → MaxKeyCount ≤ count st →
    SetSpec key value st (st, Some CapacityExceeded)
| set_stored :
    len key ≤ MaxKeySize → len value ≤ MaxValueSize →
    is_Some (st !! key) ∨ count st < MaxKeyCount →
    SetSpec key value st (<[key := value]> st, None).

End Outcome.

Section Admission.
Context {lib : GoLib}.

(** The test that opens [handleUDPCommand]: a range is configured and
    does not contain the address parsed from the sender. *)
Definition udp_denied (ac : AccessControl) (addr : string) : bool :=
  match AllowedCIDR ac with
  | Some cidr => negb (contains_nilable cidr (ParseIP (before_colon addr)))
  | None => false
  end.

(** The cases in which [accessMiddleware] calls the next handler: no
    range is configured, or the client address parses and is inside. *)
Definition http_admitted (ac : AccessControl) (r : Request) : bool :=
  match AllowedCIDR ac with
  | None => true
  | Some cidr =>
      match getIPFromRequest r with
      | Some ip => Contains cidr ip
      | None => false
      end
  end.

(** The responses of a command that went through: status 200 and one
    of the four success messages. *)
Definition command_succeeded (r : APIResponse) : Prop :=
  Status r = StatusOK
  ∧ (Message r = "PONG" ∨ Message r = "Status retrieved successfully"
     ∨ Message r = "Key retrieved successfully" ∨ Message r = "Key set successfully").

(** The responses that may name a key: a success, the 404 of a key
    that was not found, the 400 of a refused [Set_]. *)
Definition key_bearing (r : APIResponse) : Prop :=
  command_succeeded r
  ∨ (Status r = StatusNotFound ∧ Message r = "Key '" ++ Key r ++ "' not found")
  ∨ (Status r = StatusBadRequest ∧ ∃ e, Message r = Store.error_text e).

(** The responses that may hold a value: the successes of PING, GET
    and SET. *)
Definition value_bearing (r : APIResponse) : Prop :=
  Status r = StatusOK
  ∧ (Message r = "PONG" ∨ Message r = "Key retrieved successfully"
     ∨ Message r = "Key set successfully").

Definition well_populated (r : APIResponse) : Prop :=
  (carries_key r → key_bearing r) ∧ (carries_value r → value_bearing r).

(** An HTTP result whose body, if one was written, repeats the status
    code and is well populated. *)
Definition http_well_populated (out : gmap string string * HTTPResult) : Prop :=
  ∀ code r, out.2 = Written code r → code = Status r ∧ well_populated r.

(** A handler that leaves the store as it was or adds one pair whose
    value is not empty. *)
Definition stores_nonempty (st : gmap string string)
    (out : gmap string string * HTTPResult) : Prop :=
  out.1 = st ∨ ∃ k v, v ≠ "" ∧ out.1 = <[k := v]> st.

End Admission.

(** ** The rest of the server: start-up and the serving loops *)

Section Lifecycle.
Context {lib : GoLib}.


(** The loop of [startUDPServer] over the datagrams it reads, in the
    order it reads them: each is the time, the bytes and the sender. *)
Fixpoint serveDatagrams (inbox : list (string * string * string))
    (st : gmap string string) (ac : AccessControl)
  : gmap string string * list UDPEvent :=
  match inbox with
  | [] => (st, [])
  | (now, data, clientAddr) :: rest =>
      let '(st1, written) := serveDatagram now data clientAddr st ac in
      let '(st2, written') := serveDatagrams rest st1 ac in
      (st2, (written ++ written')%list)
  end.

(** The HTTP server over a sequence of requests. A handler calls the
    store at most once and the store serialises its calls, so requests
    served at the same time act on the store in some order: the order
    of the list. *)
Fixpoint serveRequests (ac : AccessControl) (inbox : list (string * Request))
    (st : gmap string string) : gmap string string * list HTTPResult :=
  match inbox with
  | [] => (st, [])
  | (now, r) :: rest =>
      let '(st1, result) := handler ac now r st in
      let '(st2, results) := serveRequests ac rest st1 in
      (st2, result :: results)
  end.

End Lifecycle.

(** ** The client, [cmd/kvclient/main.go]

    The client is modelled up to what it puts on the wire. A URL is kept
    as host, port, path and decoded query; [time.Duration] is an integer
    of nanoseconds handed to [main] as it is. *)
Module Client.

Record Options : Type := mkOptions {
  Host : string;
  Port : Z;
  Protocol : string;
  Timeout : Z
}.

(** What a call leaves on the network: the datagram of
    [sendUDPCommand], or the request that [sendHTTPRequest] builds, with
    the parameters it puts in the URL and those it puts in the body as
    a form. *)
Inductive Sent : Type :=
| UDPSend (host : string) (port : Z) (command : string)
| HTTPSend (host : string) (port : Z) (method path : string)
    (query : list (string * string)) (form : option (list (string * string))).

(** [sendUDPCommand], up to [conn.Write]. *)
Definition sendUDPCommand (opts : Options) (command : string) : Sent :=
  UDPSend (Host opts) (Port opts) command.

(** [sendHTTPRequest], up to [client.Do]: parameters go in the URL for
    GET and in the body otherwise. [params] is [url.Values] as the
    pairs [Encode] writes, sorted by name. *)
Definition sendHTTPRequest (opts : Options) (endpoint method : string)
    (params : option (list (string * string))) : Sent :=
  let path := "/api/" ++ endpoint in
  match params with
  | Some ps =>
      if String.eqb method "GET" then
        HTTPSend (Host opts) (Port opts) method path ps None
      else HTTPSend (Host opts) (Port opts) method path [] (Some ps)
  | None => HTTPSend (Host opts) (Port opts) method path [] None
  end.

Definition ping (opts : Options) : Sent :=
  if String.eqb (Protocol opts) "udp" then sendUDPCommand opts "PING"
  else sendHTTPRequest opts "ping" "GET" None.

Definition status (opts : Options) : Sent :=
  if String.eqb (Protocol opts) "udp" then sendUDPCommand opts "STATUS"
  else sendHTTPRequest opts "status" "GET" None.

Definition get (opts : Options) (key : string) : Sent :=
  if String.eqb (Protocol opts) "udp" then sendUDPCommand opts ("GET " ++ key)
  else sendHTTPRequest opts "get" "GET" (Some [("k", key)]).

Definition set (opts : Options) (key value : string) : Sent :=
  if String.eqb (Protocol opts) "udp" then
    sendUDPCommand opts ("SET " ++ key ++ " " ++ value)
  else sendHTTPRequest opts "set" "POST" (Some [("k", key); ("v", value)]).

(** How [main] ends: the version is shown, an error is printed before
    [os.Exit(1)], or a command is sent. *)
Inductive MainResult : Type :=
| ShowVersion
| Fail (message : string)
| Sends (s : Sent).

(** [main], from the parsed flags and the remaining arguments. *)
Definition main {lib : GoLib} (protocol host : string) (port timeout : Z)
    (showVersion : bool) (args : list string) : MainResult :=
  if showVersion then ShowVersion
  else if negb (String.eqb protocol "http") && negb (String.eqb protocol "udp") then
    Fail "Error: Protocol must be 'http' or 'udp'"
  else if (port <? 1) || (65535 <? port) then
    Fail "Error: Port must be between 1 and 65535"
  else
    let opts := {| Host := host; Port := port; Protocol := protocol; Timeout := timeout |} in
    if Z.of_nat (length args) <? 1 then Fail "Error: No command specified"
    else
      let command := ToUpper (nth 0 args "") in
      let cmdArgs := drop 1 args in
      if String.eqb command "PING" then Sends (ping opts)
      else if String.eqb command "STATUS" then Sends (status opts)
      else if String.eqb command "GET" then
        if Z.of_nat (length cmdArgs) <? 1 then Fail "Error: GET command requires a key"
        else Sends (get opts (nth 0 cmdArgs ""))
      else if String.eqb command "SET" then
        if Z.of_nat (length cmdArgs) <? 2 then
          Fail "Error: SET command requires a key and a value"
        else
          let value := Join (drop 1 cmdArgs) " " in
          Sends (set opts (nth 0 cmdArgs "") value)
      else Fail ("Error: Unknown command: " ++ command).

(** The switch of [printResponse] on the status: the label it prints. *)
Definition statusText (status : Z) : string :=
  if (200 <=? status) && (status <? 300) then "OK"
  else if (300 <=? status) && (status <? 400) then "REDIRECT"
  else if (400 <=? status) && (status <? 500) then "CLIENT ERROR"
  else if 500 <=? status then "SERVER ERROR"
  else "UNKNOWN".

(** The request the server reads when the client's request arrives from
    [remoteAddr]: method, path and the query of the URL. The body is
    not part of [r.URL.Query()]. *)
Definition arrives (s : Sent) (remoteAddr : string) : option Request :=
  match s with
  | HTTPSend _ _ method path query _ => Some (mkRequest method path query remoteAddr)
  | UDPSend _ _ _ => None
  end.

End Client.

(** Sample inputs on the instance [Plain]. *)
Module Sample.


Definition from_outside : string := "10.0.0.1:40000".

Definition http_opts : Client.Options := Client.mkOptions "localhost" 8080 "http" 2000000000.

End Sample.

(** * Properties of the store *)

Module StoreFacts.
Import Store Outcome.

Lemma len_nonneg (s : string) : 0 ≤ len s.
Proof. unfold len. lia. Qed.

Lemma wrap64_small (z : Z) : - 2 ^ 63 ≤ z < 2 ^ 63 → wrap64 z = z.
Proof.
  intros Hz. unfold wrap64.
  rewrite Z.mod_small; lia.
Qed.

(** A key cannot be both present and absent. *)
Ltac absurd_lookup :=
  match goal with
  | Hs : is_Some (?m !! ?k), Hn : ?m !! ?k = None |- _ =>
      rewrite Hn in Hs; by apply is_Some_None in Hs
  end.

Lemma Set_spec key value st : SetSpec key value st (Set_ key value st).
Proof.
  unfold Set_.
  destruct (Z.ltb_spec MaxKeySize (len key)); [by constructor|].
  destruct (Z.ltb_spec MaxValueSize (len value)); [by constructor|].
  case_bool_decide as Hex; simpl.
  - apply set_stored; auto.
  - destruct (Z.leb_spec MaxKeyCount (count st)).
    + apply set_full; auto.
      by apply eq_None_not_Some.
    + apply set_stored; auto.
Qed.

Lemma count_insert_Some key value (st : gmap string string) :
  is_Some (st !! key) → count (<[key := value]> st) = count st.
Proof.
  intros Hsome. unfold count.
  by rewrite map_size_insert_Some.
Qed.

Lemma count_insert_None key value (st : gmap string string) :
  st !! key = None → count (<[key := value]> st) = count st + 1.
Proof.
  intros Hnone. unfold count.
  rewrite map_size_insert_None by done. lia.
Qed.

Lemma Set_bounded key value st :
  bounded st → bounded (Set_ key value st).1.
Proof.
  intros [Hall Hcount].
  destruct (Set_spec key value st) as [?|? ?|? ? ? ?|Hk Hv Hroom];
    simpl; try by split.
  split.
  - by apply map_Forall_insert_2.
  - destruct (st !! key) as [old|] eqn:Hlook.
    + rewrite count_insert_Some; [done|by eexists].
    + rewrite count_insert_None by done.
      destruct Hroom as [[? ?]|?]; [done|lia].
Qed.

Lemma empty_bounded : bounded NewKeyValueStore.
Proof.
  split; [apply map_Forall_empty|].
  unfold count, NewKeyValueStore, MaxKeyCount. rewrite map_size_empty. lia.
Qed.

Lemma step_bounded o st : bounded st → bounded (step o st).
Proof. destruct o; simpl; auto using Set_bounded. Qed.

Lemma run_bounded ops : ∀ st, bounded st → bounded (run ops st).
Proof.
  unfold run. induction ops as [|o ops IH]; intros st Hst; simpl; [done|].
  apply IH. by apply step_bounded.
Qed.

(** The accumulator of [GetStatus] never wraps on a bounded store. *)
Lemma status_loop_exact (l : list (string * string)) :
  Forall (uncurry (λ k v, len k ≤ MaxKeySize ∧ len v ≤ MaxValueSize)) l →
  (length l ≤ 100)%nat →
  let total := foldr Z.add 0 (map (λ kv, len kv.1 + len kv.2) l) in
  foldr (uncurry (λ k v totalSize, wrap64 (totalSize + wrap64 (len k + len v)))) 0 l
    = total
  ∧ 0 ≤ total ≤ Z.of_nat (length l) * (MaxKeySize + MaxValueSize).
Proof.
  unfold MaxKeySize, MaxValueSize.
  induction l as [|[k v] l IH]; intros Hall Hlen; simpl in *; [lia|].
  apply Forall_cons in Hall as [[Hk Hv] Hall]. simpl in Hk, Hv.
  destruct IH as [-> Hrange]; [done|lia|].
  pose proof (len_nonneg k). pose proof (len_nonneg v).
  rewrite (wrap64_small (len k + len v)) by lia.
  rewrite wrap64_small by lia.
  lia.
Qed.

Lemma GetStatus_bounded st :
  bounded st →
  GetStatus st = {| KeyCount := count st; MemoryUsage := total_bytes st |}.
Proof.
  intros [Hall Hcount]. unfold GetStatus, total_bytes. f_equal.
  rewrite map_fold_foldr.
  apply status_loop_exact.
  - by apply map_Forall_to_list.
  - rewrite length_map_to_list. unfold count, MaxKeyCount in Hcount. lia.
Qed.

End StoreFacts.

Module StoreClaims.
Import Store Outcome StoreFacts.

Lemma filled_100_count : count (Plain.filled 100) = 100.
Proof. vm_compute. reflexivity. Qed.

Lemma len_long_key (n : nat) : len (Plain.long_key n) = Z.of_nat n.
Proof.
  unfold len. f_equal.
  induction n as [|n IH]; simpl; [done|by rewrite IH].
Qed.

(** C1, as stated, fails: on a store of 100 keys, a fresh key of 256
    bytes meets the condition given for the capacity error (not
    present, at least 100 keys held), and [Set_] returns the key-size
    error instead. *)
Lemma Set_capacity_condition_not_sufficient :
  Plain.filled 100 !! Plain.long_key 256 = None
  ∧ MaxKeyCount ≤ count (Plain.filled 100)
  ∧ Set_ (Plain.long_key 256) "" (Plain.filled 100)
    = (Plain.filled 100, Some KeyTooLarge).
Proof.
  split; [by vm_compute|].
  split; [rewrite filled_100_count; unfold MaxKeyCount; lia|].
  reflexivity.
Qed.

(** C1, as amended: the checks of [Set_] are tried in order. It fails
    with the key-size error iff the key is longer than 255 bytes; with
    the value-size error iff the key fits and the value is longer than
    1048576 bytes; with the capacity error iff both fit, the key is not
    present and the store holds at least 100 keys; it succeeds
    otherwise, and then stores the pair. On every failure the store is
    unchanged; a key of 256 bytes fails with the key-size error and
    leaves the store as it was. *)
Theorem Set_outcome (k v : string) (st : gmap string string) :
  ((Set_ k v st).2 = Some KeyTooLarge ↔ MaxKeySize < len k)
  ∧ ((Set_ k v st).2 = Some ValueTooLarge ↔
       len k ≤ MaxKeySize ∧ MaxValueSize < len v)
  ∧ ((Set_ k v st).2 = Some CapacityExceeded ↔
       len k ≤ MaxKeySize ∧ len v ≤ MaxValueSize
       ∧ st !! k = None ∧ MaxKeyCount ≤ count st)
  ∧ ((Set_ k v st).2 = None ↔
       len k ≤ MaxKeySize ∧ len v ≤ MaxValueSize
       ∧ (is_Some (st !! k) ∨ count st < MaxKeyCount))
  ∧ ((Set_ k v st).2 ≠ None → (Set_ k v st).1 = st)
  ∧ ((Set_ k v st).2 = None → (Set_ k v st).1 = <[k := v]> st)
  ∧ (len k = 256 → Set_ k v st = (st, Some KeyTooLarge)).
Proof.
  unfold MaxKeySize, MaxValueSize, MaxKeyCount.
  destruct (Set_spec k v st) as [Hk|Hk Hv|Hk Hv Hnew Hfull|Hk Hv Hroom];
    unfold MaxKeySize, MaxValueSize, MaxKeyCount in *; simpl;
    repeat split; intros; destruct_and?; destruct_or?;
    try congruence; try lia; try absurd_lookup; auto.
Qed.

Lemma len_big_value : len Plain.big_value = 1048577.
Proof. unfold Plain.big_value. rewrite len_long_key. apply Z2Nat.id. lia. Qed.

(** C2, as stated, fails on the store of 100 keys reached by 100
    calls of [Set_]: a fresh key of 256 bytes is refused with the
    key-size error, not the capacity error, and a key that is present
    is refused when the new value has 1048577 bytes. *)
Lemma full_store_size_errors_come_first :
  Plain.filled 100 = run (Plain.fill_ops 100) NewKeyValueStore
  ∧ count (Plain.filled 100) = MaxKeyCount
  ∧ Plain.filled 100 !! Plain.long_key 256 = None
  ∧ (Set_ (Plain.long_key 256) "v" (Plain.filled 100)).2 = Some KeyTooLarge
  ∧ is_Some (Plain.filled 100 !! Plain.byte_key 0)
  ∧ (Set_ (Plain.byte_key 0) Plain.big_value (Plain.filled 100)).2 = Some ValueTooLarge.
Proof.
  split; [reflexivity|].
  split; [apply filled_100_count|].
  split; [by vm_compute|].
  split; [reflexivity|].
  split; [by exists "x"; vm_compute|].
  unfold Set_.
  replace (MaxKeySize <? len (Plain.byte_key 0)) with false by reflexivity.
  rewrite len_big_value. reflexivity.
Qed.

(** C2, as amended: after every sequence of store operations from the
    empty store, every stored key has at most 255 bytes, every stored
    value at most 1048576 bytes, and at most 100 keys are held. When
    exactly 100 keys are held, [Set_] of a key that is not present
    always fails and leaves the store unchanged, with the capacity
    error when key and value are within their size limits; [Set_] of a
    key that is present succeeds when the value is within its limit.
    [Set_] of a key that is present never changes the number of keys. *)
Theorem store_invariant (ops : list Op) :
  let st := run ops NewKeyValueStore in
  bounded st
  ∧ (count st = MaxKeyCount →
     ∀ k v,
       (st !! k = None → (Set_ k v st).2 ≠ None ∧ (Set_ k v st).1 = st)
       ∧ (st !! k = None → len k ≤ MaxKeySize → len v ≤ MaxValueSize →
          Set_ k v st = (st, Some CapacityExceeded))
       ∧ (is_Some (st !! k) → len v ≤ MaxValueSize →
          Set_ k v st = (<[k := v]> st, None)))
  ∧ (∀ k v, is_Some (st !! k) → count (Set_ k v st).1 = count st).
Proof.
  intros st.
  assert (Hb : bounded st) by apply run_bounded, empty_bounded.
  split; [done|]. split.
  - intros Hfull k v.
    destruct (Set_spec k v st) as [Hk|Hk Hv|Hk Hv Hnew _|Hk Hv Hroom]; simpl.
    + repeat split; try done; try lia.
      intros [old Hold]. destruct Hb as [Hall _].
      apply Hall in Hold as [? _]. lia.
    + repeat split; try done; lia.
    + repeat split; try done. intros. absurd_lookup.
    + destruct Hroom as [Hsome|?]; [|lia].
      repeat split; try done; intros; absurd_lookup.
  - intros k v Hsome.
    destruct (Set_spec k v st); simpl; try done.
    by apply count_insert_Some.
Qed.

(** C3, as stated, fails on the store of 100 keys: the fresh key [new]
    and the value [x] are within the size limits, [Set_] refuses the
    pair for lack of room, and [Get] does not find the key. *)
Lemma Set_then_Get_full_store :
  len "new" ≤ MaxKeySize ∧ len "x" ≤ MaxValueSize
  ∧ Get "new" (Set_ "new" "x" (Plain.filled 100)).1 = ("", false).
Proof. repeat split; by vm_compute. Qed.

(** C3, as amended: for every key of at most 255 bytes and value of at
    most 1048576 bytes, on a store that holds the key already or holds
    fewer than 100 keys, [Set_] succeeds and [Get] of the key then
    returns the value and [true]; and [Get] of a key that is absent
    returns [false], [Get] having no error result at all. *)
Theorem Set_then_Get (k v : string) (st : gmap string string) :
  (len k ≤ MaxKeySize → len v ≤ MaxValueSize →
   is_Some (st !! k) ∨ count st < MaxKeyCount →
   (Set_ k v st).2 = None ∧ Get k (Set_ k v st).1 = (v, true))
  ∧ (st !! k = None → Get k st = ("", false)).
Proof.
  split.
  - intros Hk Hv Hroom.
    destruct (Set_spec k v st); simpl; try lia.
    + destruct Hroom; [absurd_lookup|lia].
    + split; [done|]. unfold Get. by rewrite lookup_insert_eq.
  - intros Hnone. unfold Get. by rewrite Hnone.
Qed.

(** [store_invariant] on the store of 100 keys: a fresh key within the
    size limits is refused for lack of room. *)
Lemma full_store_refuses_new_key :
  Set_ "new" "x" (run (Plain.fill_ops 100) NewKeyValueStore)
  = (run (Plain.fill_ops 100) NewKeyValueStore, Some CapacityExceeded).
Proof.
  assert (Hfull : count (run (Plain.fill_ops 100) NewKeyValueStore) = MaxKeyCount)
    by (vm_compute; reflexivity).
  apply (proj1 (proj2 (proj1 (proj2 (store_invariant (Plain.fill_ops 100)))
                         Hfull "new" "x")));
    by vm_compute.
Defined.

(** [Set_then_Get] on the empty store. *)
Lemma Set_then_Get_on_empty :
  Get "a" (Set_ "a" "hello" NewKeyValueStore).1 = ("hello", true).
Proof.
  destruct (Set_then_Get "a" "hello" NewKeyValueStore) as [Hfits _].
  apply Hfits; [by vm_compute|by vm_compute|right; by vm_compute].
Defined.

End StoreClaims.

(** * Properties of the handlers *)

Section ServerFacts.
Context {lib : GoLib}.
Implicit Types (ac : AccessControl) (st : gmap string string) (r : Request).

Lemma middleware_admitted ac (next : HandlerFunc) now r st :
  http_admitted ac r = true →
  accessMiddleware ac next now r st = next now r st.
Proof.
  unfold http_admitted, accessMiddleware.
  destruct (AllowedCIDR ac); [|done].
  destruct (getIPFromRequest r); [|done].
  by intros ->.
Qed.

(** What [accessMiddleware] does with a client outside the range. *)
Lemma middleware_denied ac (next : HandlerFunc) now r st cidr ip :
  AllowedCIDR ac = Some cidr → getIPFromRequest r = Some ip →
  Contains cidr ip = false →
  accessMiddleware ac next now r st =
    if String.eqb (FirewallMode ac) "DROP" then (st, ConnClosed)
    else if String.eqb (FirewallMode ac) "REJECT" then
      (st, Written StatusForbidden
             (mkAPIResponse StatusForbidden
                "Connection rejected by firewall: Your IP is not in the allowed range"
                "" "" None now))
    else
      (st, Written StatusForbidden
             (mkAPIResponse StatusForbidden
                "Access denied: Your IP is not in the allowed range"
                "" "" None now)).
Proof.
  intros Hcidr Hip Hout. unfold accessMiddleware.
  by rewrite Hcidr, Hip, Hout.
Qed.

(** What [handleUDPCommand] returns for a sender outside the range. *)
Lemma udp_denied_outcome ac now command addr st :
  udp_denied ac addr = true →
  handleUDPCommand now command addr st ac =
    if String.eqb (FirewallMode ac) "DROP" then (st, None)
    else if String.eqb (FirewallMode ac) "REJECT" then
      (st, Some (mkAPIResponse StatusForbidden
                   "Connection rejected by firewall: Your IP is not in the allowed range"
                   "" "" None now))
    else
      (st, Some (mkAPIResponse StatusForbidden
                   "Access denied: Your IP is not in the allowed range"
                   "" "" None now)).
Proof.
  unfold udp_denied, handleUDPCommand. by intros ->.
Qed.

(** The loop writes exactly one datagram per datagram read, whatever
    the handler returned. *)
Lemma serveDatagram_writes_once ac now data clientAddr st :
  ∃ payload, (serveDatagram now data clientAddr st ac).2
             = [WriteToUDP payload clientAddr].
Proof.
  unfold serveDatagram.
  destruct (handleUDPCommand _ _ _ _ _) as [st' response]. by eexists.
Qed.

(** A path outside the four patterns is answered by [notFoundHandler],
    which does not look at the client address. *)
Lemma unrouted_not_filtered ac now r st :
  mux_Handler ac r = None →
  handler ac now r st =
    (st, Written StatusNotFound
           (mkAPIResponse StatusNotFound ("Route '" ++ Path r ++ "' not found")
              "" "" None now)).
Proof. unfold handler. by intros ->. Qed.

Lemma sendJSONResponse_body now status message key value data :
  ∃ body, sendJSONResponse now status message key value data = Written status body
          ∧ Status body = status ∧ Message body = message
          ∧ (Key body = key ∧ Value body = value ∧ status = StatusOK
             ∨ Key body = "" ∧ Value body = "").
Proof.
  unfold sendJSONResponse. eexists. split; [done|]. simpl.
  repeat split.
  destruct (Z.eqb_spec status StatusOK); simpl; [|by right].
  destruct (String.eqb key ""); simpl; [by right|by left].
Qed.

(** *** Which responses name a key or hold a value *)

Lemma bare_response_ok now status message data :
  well_populated (mkAPIResponse status message "" "" data now).
Proof. split; intros Hc; by destruct Hc. Qed.

Lemma success_ok now message key value data :
  message = "PONG" ∨ message = "Key retrieved successfully"
  ∨ message = "Key set successfully"
  ∨ (message = "Status retrieved successfully" ∧ value = "") →
  well_populated (mkAPIResponse StatusOK message key value data now).
Proof.
  intros Hm. unfold well_populated, carries_key, carries_value, key_bearing,
    value_bearing, command_succeeded; simpl.
  split; intros Hc.
  - left. split; [done|]. destruct Hm as [->|[->|[->|[-> _]]]]; auto.
  - split; [done|]. destruct Hm as [->|[->|[->|[_ ->]]]]; auto.
    by destruct Hc.
Qed.

Lemma sendJSONResponse_ok now st status message key value data :
  (status = StatusOK → key ≠ "" →
   well_populated (mkAPIResponse status message key value data now)) →
  http_well_populated (st, sendJSONResponse now status message key value data).
Proof.
  intros Hok code r [= <- <-]. split; [done|].
  destruct (Z.eqb_spec status StatusOK) as [->|Hne]; simpl.
  - destruct (String.eqb_spec key "") as [->|Hkey]; simpl.
    + apply bare_response_ok.
    + by apply Hok.
  - apply bare_response_ok.
Qed.

Lemma middleware_ok ac (next : HandlerFunc) now r st :
  http_well_populated (next now r st) →
  http_well_populated (accessMiddleware ac next now r st).
Proof.
  intros Hnext. unfold accessMiddleware.
  repeat case_match; try done;
    try (apply sendJSONResponse_ok; intros; discriminate).
Qed.

Lemma handlers_ok now r st :
  http_well_populated (pingHandler now r st)
  ∧ http_well_populated (statusHandler now r st)
  ∧ http_well_populated (getHandler now r st)
  ∧ http_well_populated (setHandler now r st)
  ∧ http_well_populated (notFoundHandler now r st).
Proof.
  unfold pingHandler, statusHandler, getHandler, setHandler, notFoundHandler.
  split_and!; repeat case_match;
    apply sendJSONResponse_ok; intros; try discriminate;
    apply success_ok; auto.
Qed.

Lemma http_population ac now r st :
  http_well_populated (handler ac now r st).
Proof.
  pose proof (handlers_ok now r st) as (?&?&?&?&?).
  unfold handler, mux_Handler.
  repeat case_match; simplify_eq; auto using middleware_ok.
Qed.

Lemma udp_population ac now command addr st st' resp :
  handleUDPCommand now command addr st ac = (st', Some resp) →
  well_populated resp.
Proof.
  unfold handleUDPCommand, udpResponse, well_populated, carries_key,
    carries_value, key_bearing, value_bearing, command_succeeded.
  intros Heq.
  repeat case_match; simplify_eq; simpl; split; intros Hc; try done;
    eauto 10.
Qed.

(** *** What the HTTP handlers do to the store *)

Lemma middleware_stores ac (next : HandlerFunc) now r st :
  stores_nonempty st (next now r st) →
  stores_nonempty st (accessMiddleware ac next now r st).
Proof.
  intros Hnext. unfold accessMiddleware.
  repeat case_match; try done; by left.
Qed.

Lemma setHandler_stores now r st : stores_nonempty st (setHandler now r st).
Proof.
  unfold setHandler.
  destruct (_ && _); [by left|].
  destruct (String.eqb_spec (query_get "k" (Query r)) ""); [by left|].
  destruct (String.eqb_spec (query_get "v" (Query r)) "") as [|Hv]; [by left|].
  destruct (StoreFacts.Set_spec (query_get "k" (Query r))
              (query_get "v" (Query r)) st); try by left.
  right. by eexists _, _.
Qed.

Lemma http_stores ac now r st : stores_nonempty st (handler ac now r st).
Proof.
  unfold handler, mux_Handler.
  repeat case_match; simplify_eq; try apply middleware_stores;
    try apply setHandler_stores;
    unfold pingHandler, statusHandler, getHandler, notFoundHandler;
    repeat case_match; by left.
Qed.

(** *** Commands that pass the filter *)

Lemma three_parts (a b c : string) (rest : list string) :
  (Z.of_nat (length (a :: b :: c :: rest)) =? 0) = false
  ∧ (Z.of_nat (length (a :: b :: c :: rest)) <? 2) = false
  ∧ (Z.of_nat (length (a :: b :: c :: rest)) <? 3) = false.
Proof.
  simpl length. split_and!; [apply Z.eqb_neq|apply Z.ltb_ge|apply Z.ltb_ge]; lia.
Qed.

Lemma udp_set_admitted ac now command addr st verb key t rest :
  Fields command = verb :: key :: t :: rest →
  ToUpper verb = "SET" →
  udp_denied ac addr = false →
  handleUDPCommand now command addr st ac =
    match Store.Set_ key (Join (t :: rest) " ") st with
    | (st', Some err) =>
        (st', Some (mkAPIResponse StatusBadRequest (Store.error_text err)
                      key "" None now))
    | (st', None) =>
        (st', Some (mkAPIResponse StatusOK "Key set successfully"
                      key (Join (t :: rest) " ") None now))
    end.
Proof.
  intros Hparts Hverb Hin. unfold handleUDPCommand.
  unfold udp_denied in Hin. rewrite Hin, Hparts.
  destruct (three_parts verb key t rest) as (-> & -> & ->).
  simpl nth. rewrite Hverb. simpl. reflexivity.
Qed.

Lemma udp_get_absent ac now command addr st verb key rest :
  Fields command = verb :: key :: rest →
  ToUpper verb = "GET" →
  udp_denied ac addr = false →
  st !! key = None →
  handleUDPCommand now command addr st ac =
    (st, Some (mkAPIResponse StatusNotFound ("Key '" ++ key ++ "' not found")
                 key "" None now)).
Proof.
  intros Hparts Hverb Hin Habsent. unfold handleUDPCommand.
  unfold udp_denied in Hin. rewrite Hin, Hparts.
  replace (Z.of_nat (length (verb :: key :: rest)) =? 0) with false
    by (symmetry; apply Z.eqb_neq; simpl length; lia).
  replace (Z.of_nat (length (verb :: key :: rest)) <? 2) with false
    by (symmetry; apply Z.ltb_ge; simpl length; lia).
  simpl nth. rewrite Hverb. simpl.
  unfold Store.Get. by rewrite Habsent.
Qed.

(** On HTTP the 404 goes through [sendJSONResponse], which keeps the
    key for status 200 only. *)
Lemma http_get_absent ac now r st :
  Path r = "/api/get" → Method r = "GET" →
  http_admitted ac r = true →
  query_get "k" (Query r) ≠ "" →
  st !! query_get "k" (Query r) = None →
  handler ac now r st =
    (st, Written StatusNotFound
           (mkAPIResponse StatusNotFound
              ("Key '" ++ query_get "k" (Query r) ++ "' not found")
              "" "" None now)).
Proof.
  intros Hpath Hmethod Hin Hkey Habsent.
  unfold handler, mux_Handler. rewrite Hpath. simpl.
  rewrite middleware_admitted by done.
  unfold getHandler. rewrite Hmethod. simpl.
  destruct (String.eqb_spec (query_get "k" (Query r)) ""); [done|].
  unfold Store.Get. by rewrite Habsent.
Qed.

(** The sender is read off the text before the first colon of its
    address. For an IPv6 sender that text is an opening bracket: a
    single bracket is no address, so the sender is outside every range. *)
Lemma udp_ipv6_sender_denied ac cidr :
  AllowedCIDR ac = Some cidr → ParseIP "[" = None →
  before_colon "[::1]:5000" = "[" ∧ udp_denied ac "[::1]:5000" = true.
Proof.
  intros Hcidr Hparse. split; [done|].
  unfold udp_denied. rewrite Hcidr. simpl. by rewrite Hparse.
Qed.

Lemma serveDatagram_dropped ac now data clientAddr st :
  udp_denied ac clientAddr = true → FirewallMode ac = "DROP" →
  serveDatagram now data clientAddr st ac = (st, [WriteToUDP None clientAddr]).
Proof.
  intros Hout Hmode. unfold serveDatagram.
  rewrite udp_denied_outcome by done. by rewrite Hmode.
Qed.

End ServerFacts.

(** * The access filter *)

(** C4 at its failing input: a datagram from 10.0.0.1, outside
    127.0.0.1/32, under DROP. [handleUDPCommand] returns the nil slice
    and leaves the store alone, and the loop of [startUDPServer] still
    calls [WriteToUDP] with it: a datagram of length zero goes back to
    the sender. The same client is cut off without a byte on HTTP. *)
Theorem udp_drop_still_writes_to_sender :
  @udp_denied Plain.lib (Plain.policy "DROP") "10.0.0.1:5000" = true
  ∧ @handleUDPCommand Plain.lib "t" "PING" "10.0.0.1:5000" ∅ (Plain.policy "DROP")
    = (∅, None)
  ∧ @serveDatagram Plain.lib "t" "PING" "10.0.0.1:5000" ∅ (Plain.policy "DROP")
    = (∅, [WriteToUDP None "10.0.0.1:5000"])
  ∧ @handler Plain.lib (Plain.policy "DROP") "t"
      (mkRequest "GET" "/api/ping" [] "10.0.0.1:40000") ∅
    = (∅, ConnClosed).
Proof. split_and!; by vm_compute. Qed.

(** C5 at its failing input: an HTTP request from 10.0.0.1, outside
    127.0.0.1/32, to a path that matches no route. Under every mode it
    is answered 404 by [notFoundHandler]; the filter, which wraps the
    four routes one by one, is never consulted. *)
Theorem unrouted_path_answers_outsider :
  let r := mkRequest "GET" "/nope" [] "10.0.0.1:40000" in
  let not_found :=
    Written StatusNotFound
      (mkAPIResponse StatusNotFound "Route '/nope' not found" "" "" None "t") in
  @http_admitted Plain.lib (Plain.policy "DROP") r = false
  ∧ @handler Plain.lib (Plain.policy "DROP") "t" r ∅ = (∅, not_found)
  ∧ @handler Plain.lib (Plain.policy "REJECT") "t" r ∅ = (∅, not_found)
  ∧ @handler Plain.lib (Plain.policy "ACCEPT") "t" r ∅ = (∅, not_found).
Proof. split_and!; by vm_compute. Qed.

(** * The command handlers *)

(** C6 at its failing input: GET of the key [b] on the empty store. The
    UDP response names the key; the HTTP response has status 404 and
    the message, and no key. *)
Theorem http_not_found_drops_key :
  @handleUDPCommand Plain.lib "t" "GET b" "10.0.0.1:5000" ∅ Plain.open_policy
    = (∅, Some (mkAPIResponse StatusNotFound "Key 'b' not found" "b" "" None "t"))
  ∧ @handler Plain.lib Plain.open_policy "t"
      (mkRequest "GET" "/api/get" [("k", "b")] "10.0.0.1:40000") ∅
    = (∅, Written StatusNotFound
            (mkAPIResponse StatusNotFound "Key 'b' not found" "" "" None "t")).
Proof. split; by vm_compute. Qed.

(** C7, as stated, fails on UDP: the 404 of a key that was not found and
    the 400 of a refused SET both name the key. *)
Lemma udp_error_responses_name_the_key :
  @handleUDPCommand Plain.lib "t" "GET missing" "10.0.0.1:5000" ∅ Plain.open_policy
    = (∅, Some (mkAPIResponse StatusNotFound "Key 'missing' not found"
                  "missing" "" None "t"))
  ∧ @handleUDPCommand Plain.lib "t" ("SET " ++ Plain.long_key 256 ++ " v")
      "10.0.0.1:5000" ∅ Plain.open_policy
    = (∅, Some (mkAPIResponse StatusBadRequest
                  "key exceeds maximum size of 255 bytes"
                  (Plain.long_key 256) "" None "t")).
Proof. split; by vm_compute. Qed.

Section HandlerClaims.
Context {lib : GoLib}.
Implicit Types (ac : AccessControl) (st : gmap string string) (r : Request).

(** C7, as amended: on both transports a response holds a value only
    if it is a 200 of PING, GET or SET, and names a key only if it is
    a 200 of PING, STATUS, GET or SET, the 404 of a key that was not
    found, or the 400 of a refused Set. Every other response (denied
    access, missing parameter, empty or unknown command, method not
    allowed, route not found) has neither. On HTTP the body repeats
    the status code that was written. *)
Theorem key_and_value_population ac now :
  (∀ command addr st st' resp,
     handleUDPCommand now command addr st ac = (st', Some resp) →
     (carries_key resp → key_bearing resp)
     ∧ (carries_value resp → value_bearing resp))
  ∧ (∀ r st code body,
       (handler ac now r st).2 = Written code body →
       code = Status body
       ∧ (carries_key body → key_bearing body)
       ∧ (carries_value body → value_bearing body)).
Proof.
  split.
  - intros command addr st st' resp Heq.
    by apply udp_population in Heq.
  - intros r st code body Heq.
    by apply (http_population ac now r st) in Heq.
Qed.

(** C8: in a UDP command of at least three tokens whose first token is
    SET in any case, the second token is the key and the value is the
    tokens after it joined by single spaces. The store is left as it
    was or gains exactly that pair; it is the store [Set_] leaves for
    that pair when the sender is admitted; and a response of status
    200 means the pair is stored and echoed. *)
Theorem udp_set_joins_the_tail ac now command addr st verb key t rest :
  Fields command = verb :: key :: t :: rest →
  ToUpper verb = "SET" →
  let value := Join (t :: rest) " " in
  let out := handleUDPCommand now command addr st ac in
  (out.1 = st ∨ out.1 = <[key := value]> st)
  ∧ (udp_denied ac addr = false → out.1 = (Store.Set_ key value st).1)
  ∧ (∀ resp, out.2 = Some resp → Status resp = StatusOK →
       out.1 !! key = Some value ∧ Key resp = key ∧ Value resp = value).
Proof.
  intros Hparts Hverb value out. subst out.
  destruct (udp_denied ac addr) eqn:Hin.
  - rewrite udp_denied_outcome by done.
    repeat case_match; simpl; split_and!; auto; try done;
      intros resp [= <-]; done.
  - rewrite (udp_set_admitted ac now command addr st verb key t rest) by done.
    fold value.
    destruct (StoreFacts.Set_spec key value st); simpl; split_and!; auto;
      try (intros resp [= <-]; done).
    intros resp [= <-] _. simpl. by rewrite lookup_insert_eq.
Qed.

(** C10, as amended: an HTTP request to /api/set by POST or PUT whose
    parameter [v] is empty never changes the store and never gets a
    200; when it passes the filter and its parameter [k] is not empty,
    the answer is 400 with the message "Missing value parameter". No
    HTTP request makes an empty value appear in the store, although
    [Set_] itself accepts one. *)
Theorem http_set_refuses_empty_value ac now r st :
  Path r = "/api/set" →
  Method r = "POST" ∨ Method r = "PUT" →
  query_get "v" (Query r) = "" →
  (handler ac now r st).1 = st
  ∧ (∀ code body, (handler ac now r st).2 = Written code body →
       code ≠ StatusOK ∧ Status body ≠ StatusOK)
  ∧ (http_admitted ac r = true → query_get "k" (Query r) ≠ "" →
     (handler ac now r st).2
     = Written StatusBadRequest
         (mkAPIResponse StatusBadRequest "Missing value parameter" "" "" None now))
  ∧ (∀ r' st' k, (handler ac now r' st').1 !! k = Some "" → st' !! k = Some "")
  ∧ (∀ k st', len k ≤ MaxKeySize → st' !! k = None →
       Store.count st' < MaxKeyCount →
       Store.Set_ k "" st' = (<[k := ""]> st', None)).
Proof.
  intros Hpath Hmethod Hv.
  assert (Hset : setHandler now r st =
            if String.eqb (query_get "k" (Query r)) "" then
              (st, Written StatusBadRequest
                     (mkAPIResponse StatusBadRequest "Missing key parameter"
                        "" "" None now))
            else
              (st, Written StatusBadRequest
                     (mkAPIResponse StatusBadRequest "Missing value parameter"
                        "" "" None now))).
  { unfold setHandler. rewrite Hv.
    destruct Hmethod as [-> | ->]; simpl; by destruct (String.eqb _ ""). }
  assert (Hroute : handler ac now r st = accessMiddleware ac setHandler now r st).
  { unfold handler, mux_Handler. by rewrite Hpath. }
  split_and!.
  - rewrite Hroute. unfold accessMiddleware.
    repeat case_match; try done.
    all: rewrite Hset; by destruct (String.eqb _ "").
  - intros code body. rewrite Hroute. unfold accessMiddleware.
    repeat case_match; try rewrite Hset; try destruct (String.eqb _ "");
      intros [= <- <-]; done.
  - intros Hin Hk. rewrite Hroute, middleware_admitted, Hset by done.
    by destruct (String.eqb_spec (query_get "k" (Query r)) "").
  - intros r' st' k Hlook.
    destruct (http_stores ac now r' st') as [Heq | (k' & v' & Hne & Heq)];
      rewrite Heq in Hlook; [done|].
    destruct (decide (k' = k)) as [->|Hkk].
    + rewrite lookup_insert_eq in Hlook. congruence.
    + by rewrite lookup_insert_ne in Hlook.
  - intros k st' Hk Hnew Hroom.
    destruct (StoreFacts.Set_spec k "" st'); try done; lia.
Qed.

End HandlerClaims.

(** [key_and_value_population] on the UDP command [GET missing]: the
    response names the key and is the 404 of a key that was not found. *)
Lemma udp_get_missing_is_key_bearing :
  key_bearing
    (mkAPIResponse StatusNotFound "Key 'missing' not found" "missing" "" None "t").
Proof.
  destruct (@key_and_value_population Plain.lib Plain.open_policy "t") as [Hudp _].
  refine (proj1 (Hudp "GET missing" "10.0.0.1:5000" ∅ ∅ _ _) _);
    [by vm_compute|discriminate].
Defined.

(** The datagram [SET greeting Hello, World!] stores the value
    [Hello, World!] under the key [greeting]: the instance of
    [udp_set_joins_the_tail] at that command on the empty store. *)
Lemma udp_set_greeting :
  (@handleUDPCommand Plain.lib "t" "SET greeting Hello, World!" "10.0.0.1:5000"
     ∅ Plain.open_policy).1 !! "greeting" = Some "Hello, World!".
Proof.
  destruct (@udp_set_joins_the_tail Plain.lib Plain.open_policy "t"
              "SET greeting Hello, World!" "10.0.0.1:5000" ∅
              "SET" "greeting" "Hello," ["World!"] eq_refl eq_refl)
    as (_ & _ & Hok).
  exact (proj1 (Hok _ eq_refl eq_refl)).
Defined.

(** C10, as stated, fails when the key is missing too: the request
    POST /api/set?v= is answered 400 with the message of the key. *)
Lemma http_set_without_key_reports_the_key :
  @handler Plain.lib Plain.open_policy "t"
    (mkRequest "POST" "/api/set" [("v", "")] "10.0.0.1:40000") ∅
  = (∅, Written StatusBadRequest
          (mkAPIResponse StatusBadRequest "Missing key parameter" "" "" None "t")).
Proof. by vm_compute. Qed.

(** The request PUT /api/set?k=a&v= on the empty store: the instance of
    [http_set_refuses_empty_value] at an admitted request with a key. *)
Lemma http_set_empty_value_for_a :
  @handler Plain.lib Plain.open_policy "t"
    (mkRequest "PUT" "/api/set" [("k", "a"); ("v", "")] "10.0.0.1:40000") ∅
  = (∅, Written StatusBadRequest
          (mkAPIResponse StatusBadRequest "Missing value parameter" "" "" None "t")).
Proof.
  destruct (@http_set_refuses_empty_value Plain.lib Plain.open_policy "t"
              (mkRequest "PUT" "/api/set" [("k", "a"); ("v", "")] "10.0.0.1:40000")
              ∅ eq_refl (or_intror eq_refl) eq_refl)
    as (Hst & _ & Hresp & _).
  apply injective_projections; simpl.
  - exact Hst.
  - apply Hresp; [reflexivity|discriminate].
Defined.

(** * The status *)

(** C9: on every store that a sequence of operations reaches from the
    empty store, [GetStatus] returns the number of distinct keys and the
    sum over the entries of the lengths of key and value, both computed
    from the one store it reads. After [SET a hello] alone, the status
    is 1 key and 6 bytes, at the store and through either transport. *)
Theorem GetStatus_snapshot (ops : list Store.Op) :
  let st := Store.run ops Store.NewKeyValueStore in
  Store.KeyCount (Store.GetStatus st) = Z.of_nat (size (dom st))
  ∧ Store.MemoryUsage (Store.GetStatus st) = Store.total_bytes st
  ∧ Store.GetStatus (Store.run [Store.OpSet "a" "hello"] Store.NewKeyValueStore)
    = Store.mkStatusInfo 1 6
  ∧ (let st1 := (@serveDatagram Plain.lib "t" "SET a hello" "10.0.0.1:5000"
                   ∅ Plain.open_policy).1 in
     (@serveDatagram Plain.lib "t" "STATUS" "10.0.0.1:5000" st1 Plain.open_policy).2
     = [WriteToUDP
          (Some (mkAPIResponse StatusOK "Status retrieved successfully" "status" ""
                   (Some (Store.mkStatusInfo 1 6)) "t"))
          "10.0.0.1:5000"])
  ∧ (let st1 := (@handler Plain.lib Plain.open_policy "t"
                   (mkRequest "POST" "/api/set" [("k", "a"); ("v", "hello")]
                      "10.0.0.1:40000") ∅).1 in
     (@handler Plain.lib Plain.open_policy "t"
        (mkRequest "GET" "/api/status" [] "10.0.0.1:40000") st1).2
     = Written StatusOK
         (mkAPIResponse StatusOK "Status retrieved successfully" "status" ""
            (Some (Store.mkStatusInfo 1 6)) "t")).
Proof.
  intros st.
  assert (Hb : Store.bounded st)
    by apply StoreFacts.run_bounded, StoreFacts.empty_bounded.
  rewrite (StoreFacts.GetStatus_bounded st Hb). simpl.
  split; [unfold Store.count; by rewrite size_dom|].
  split; [done|].
  split_and!; by vm_compute.
Qed.

(** * Further properties of the store *)

Module StoreExtras.
Import Store Outcome StoreFacts.

Lemma sum_permutation (f : string * string → Z) (l1 l2 : list (string * string)) :
  l1 ≡ₚ l2 → foldr Z.add 0 (map f l1) = foldr Z.add 0 (map f l2).
Proof.
  induction 1 as [|x l l' _ IH|x y l|l l' l'' _ IH1 _ IH2]; simpl; lia.
Qed.

Lemma total_bytes_insert_None (k v : string) (st : gmap string string) :
  st !! k = None → total_bytes (<[k := v]> st) = total_bytes st + (len k + len v).
Proof.
  intros Hnew. unfold total_bytes.
  rewrite (sum_permutation _ _ _ (map_to_list_insert st k v Hnew)). simpl. lia.
Qed.

Lemma total_bytes_insert_Some (k v old : string) (st : gmap string string) :
  st !! k = Some old →
  total_bytes (<[k := v]> st) = total_bytes st - len old + len v.
Proof.
  intros Hold.
  rewrite <- (insert_delete_eq st k v).
  rewrite total_bytes_insert_None by apply lookup_delete_eq.
  unfold total_bytes at 2.
  rewrite <- (sum_permutation _ _ _ (map_to_list_delete st k old Hold)).
  simpl. fold (total_bytes (delete k st)). lia.
Qed.

Lemma Set_fst (k v : string) (st : gmap string string) :
  (Set_ k v st).1 = st ∨ (Set_ k v st).1 = <[k := v]> st.
Proof. destruct (Set_spec k v st); simpl; auto. Qed.

Lemma step_keeps (o : Op) (st : gmap string string) (k : string) :
  is_Some (st !! k) → is_Some (step o st !! k).
Proof.
  intros Hk. destruct o as [|k' v|]; simpl; try done.
  destruct (Set_fst k' v st) as [-> | ->]; [done|].
  apply lookup_insert_is_Some. destruct (decide (k' = k)); auto.
Qed.

Lemma step_count (o : Op) (st : gmap string string) :
  count st ≤ count (step o st) ≤ count st + 1.
Proof.
  destruct o as [|k v|]; simpl; try lia.
  destruct (Set_fst k v st) as [-> | ->]; [lia|].
  destruct (st !! k) eqn:Hk.
  - rewrite count_insert_Some by eauto. lia.
  - rewrite count_insert_None by done. lia.
Qed.

(** X1: [Set_] of one key, accepted or refused, leaves what [Get]
    returns for every other key as it was. *)
Theorem Set_leaves_other_keys (k k' v : string) (st : gmap string string) :
  k' ≠ k → Get k' (Set_ k v st).1 = Get k' st.
Proof.
  intros Hne. unfold Get.
  destruct (Set_fst k v st) as [-> | ->]; [done|].
  by rewrite lookup_insert_ne.
Qed.

Lemma Set_leaves_other_keys_ab :
  Get "b" (Set_ "a" "1" (<["b" := "2"]> ∅)).1 = Get "b" (<["b" := "2"]> ∅).
Proof. apply (Set_leaves_other_keys "a" "b" "1"). discriminate. Defined.

(** X2: the store has no way to forget. Over every sequence of
    operations, from any store, a key that [Get] finds is still found
    afterwards, and the number of keys never goes down. *)
Theorem keys_are_never_removed (ops : list Op) (st : gmap string string) :
  (∀ k, (Get k st).2 = true → (Get k (run ops st)).2 = true)
  ∧ count st ≤ count (run ops st).
Proof.
  revert st. unfold run.
  induction ops as [|o ops IH]; intros st; simpl; [split; [done|lia]|].
  destruct (IH (step o st)) as [Hkeep Hcount]. split.
  - intros k Hk. apply Hkeep. revert Hk. unfold Get.
    destruct (st !! k) eqn:Hlook; [|done]. intros _.
    destruct (step_keeps o st k) as [x ->]; [by eexists|done].
  - pose proof (step_count o st). lia.
Qed.

(** X3: once [Set_] has accepted a key, setting it again is always
    accepted, whatever the number of keys: the same pair leaves the
    store as it is, and another value within the size limit replaces
    the first without a trace. *)
Theorem Set_again (k v v' : string) (st st1 : gmap string string) :
  Set_ k v st = (st1, None) →
  Set_ k v st1 = (st1, None)
  ∧ (len v' ≤ MaxValueSize → Set_ k v' st1 = (<[k := v']> st, None)).
Proof.
  intros Hset.
  destruct (Set_spec k v st) as [?|? ?|? ? ? ?|Hk Hv _]; try discriminate.
  injection Hset as <-.
  assert (Hin : is_Some (<[k := v]> st !! k)) by (rewrite lookup_insert_eq; eauto).
  split.
  - destruct (Set_spec k v (<[k := v]> st)) as [?|? ?|? ? Hnew ?|? ? ?]; try lia.
    + absurd_lookup.
    + by rewrite insert_insert_eq.
  - intros Hv'.
    destruct (Set_spec k v' (<[k := v]> st)) as [?|? ?|? ? Hnew ?|? ? ?]; try lia.
    + absurd_lookup.
    + by rewrite insert_insert_eq.
Qed.

Lemma Set_again_on_empty :
  Set_ "a" "1" (<["a" := "1"]> ∅) = (<["a" := "1"]> ∅, None)
  ∧ Set_ "a" "22" (<["a" := "1"]> ∅) = (<["a" := "22"]> ∅, None).
Proof.
  assert (Hfirst : Set_ "a" "1" ∅ = (<["a" := "1"]> ∅, None)) by reflexivity.
  destruct (Set_again "a" "1" "22" ∅ (<["a" := "1"]> ∅) Hfirst) as [Hsame Hother].
  split; [exact Hsame|]. apply Hother. by vm_compute.
Defined.

(** X4: what an accepted [Set_] does to the status, on every store
    reached from the empty one. A new key adds one to the key count and
    the lengths of key and value to the memory usage; a key that was
    present keeps the count and trades the length of the old value for
    that of the new one. *)
Theorem status_after_Set (ops : list Op) (k v : string) :
  let st := run ops NewKeyValueStore in
  (Set_ k v st).2 = None →
  GetStatus (Set_ k v st).1 =
    match st !! k with
    | None =>
        {| KeyCount := KeyCount (GetStatus st) + 1;
           MemoryUsage := MemoryUsage (GetStatus st) + len k + len v |}
    | Some old =>
        {| KeyCount := KeyCount (GetStatus st);
           MemoryUsage := MemoryUsage (GetStatus st) - len old + len v |}
    end.
Proof.
  intros st Hok.
  assert (Hb : bounded st) by apply run_bounded, empty_bounded.
  assert (Hb' : bounded (Set_ k v st).1) by by apply Set_bounded.
  rewrite (GetStatus_bounded _ Hb), (GetStatus_bounded _ Hb'). simpl.
  destruct (Set_spec k v st) as [?|? ?|? ? ? ?|_ _ _]; try discriminate. simpl.
  destruct (st !! k) as [old|] eqn:Hk.
  - rewrite count_insert_Some by eauto.
    by rewrite (total_bytes_insert_Some k v old).
  - rewrite count_insert_None by done.
    rewrite total_bytes_insert_None by done. f_equal. lia.
Qed.

Lemma status_after_Set_on_empty :
  GetStatus (Set_ "a" "hello" (run [] NewKeyValueStore)).1
  = {| KeyCount := KeyCount (GetStatus (run [] NewKeyValueStore)) + 1;
       MemoryUsage := MemoryUsage (GetStatus (run [] NewKeyValueStore))
                      + len "a" + len "hello" |}.
Proof. apply (status_after_Set [] "a" "hello"). reflexivity. Defined.

Lemma run_count (ops : list Op) :
  ∀ st, count (run ops st) ≤ count st + Z.of_nat (length ops).
Proof.
  unfold run. induction ops as [|o ops IH]; intros st; simpl; [lia|].
  specialize (IH (step o st)). pose proof (step_count o st). lia.
Qed.

(** X5: on every store reached from the empty one by a sequence of
    operations, the key count reported is at most the number of
    operations and at most 100, and the memory usage reported lies
    between 0 and 1048831 bytes (255 + 1048576) per key, so never above
    104883100. *)
Theorem status_bounds (ops : list Op) :
  let status := GetStatus (run ops NewKeyValueStore) in
  0 ≤ KeyCount status ≤ Z.min (Z.of_nat (length ops)) MaxKeyCount
  ∧ 0 ≤ MemoryUsage status ≤ KeyCount status * (MaxKeySize + MaxValueSize)
  ∧ MemoryUsage status ≤ 104883100.
Proof.
  intros status. subst status.
  set (st := run ops NewKeyValueStore).
  assert (Hb : bounded st) by apply run_bounded, empty_bounded.
  rewrite (GetStatus_bounded _ Hb). simpl.
  pose proof (run_count ops NewKeyValueStore) as Hn. fold st in Hn.
  destruct Hb as [Hall Hcount].
  assert (Hsum : 0 ≤ total_bytes st ≤ count st * (MaxKeySize + MaxValueSize)).
  { unfold total_bytes, count. rewrite <- length_map_to_list.
    apply map_Forall_to_list in Hall.
    induction Hall as [|[k' v'] l [Hk Hv] _ IH]; simpl in *; [lia|].
    pose proof (len_nonneg k'). pose proof (len_nonneg v').
    unfold MaxKeySize, MaxValueSize in *. lia. }
  unfold count, NewKeyValueStore in *. rewrite map_size_empty in Hn.
  unfold MaxKeyCount, MaxKeySize, MaxValueSize in *.
  split_and!; lia.
Qed.

End StoreExtras.

(** * Further properties of the handlers *)

Section HandlerExtras.
Context {lib : GoLib}.
Implicit Types (ac : AccessControl) (st : gmap string string) (r : Request).

(** The four routes, for a request that passes the filter. *)
Lemma routed_admitted ac now r st :
  http_admitted ac r = true →
  handler ac now r st =
    if String.eqb (Path r) "/api/ping" then pingHandler now r st
    else if String.eqb (Path r) "/api/status" then statusHandler now r st
    else if String.eqb (Path r) "/api/get" then getHandler now r st
    else if String.eqb (Path r) "/api/set" then setHandler now r st
    else notFoundHandler now r st.
Proof.
  intros Hin. unfold handler, mux_Handler.
  repeat case_match; simplify_eq; try done; by apply middleware_admitted.
Qed.

(** The routes, for a request that does not pass: the next handler is
    not called. *)
Lemma middleware_refused ac (next : HandlerFunc) now r st :
  http_admitted ac r = false →
  (accessMiddleware ac next now r st).1 = st
  ∧ ∀ code body, (accessMiddleware ac next now r st).2 = Written code body →
      Key body = "" ∧ Value body = "" ∧ Data body = None
      ∧ (code = StatusForbidden ∨ code = StatusInternalServerError).
Proof.
  unfold http_admitted, accessMiddleware. intros Hout.
  destruct (AllowedCIDR ac); [|done].
  destruct (getIPFromRequest r).
  - rewrite Hout. simpl.
    repeat case_match; (split; [done|]); intros code body [= <- <-]; auto.
  - split; [done|]. intros code body [= <- <-]; auto.
Qed.

(** A request that does not pass is never answered 200 and never
    reaches the store. *)
Lemma refused_keeps_store ac now r st :
  http_admitted ac r = false →
  (handler ac now r st).1 = st
  ∧ ∀ body, (handler ac now r st).2 ≠ Written StatusOK body.
Proof.
  intros Hout. unfold handler.
  destruct (mux_Handler ac r) as [h|] eqn:Hroute.
  - assert (Hh : ∃ next, h = accessMiddleware ac next).
    { unfold mux_Handler in Hroute. repeat case_match; simplify_eq; eauto. }
    destruct Hh as [next ->].
    destruct (middleware_refused ac next now r st Hout) as [Hst Hbody].
    split; [done|]. intros body Hw.
    destruct (Hbody _ _ Hw) as (_ & _ & _ & [?|?]); discriminate.
  - split; [done|]. intros body. discriminate.
Qed.


(** X7: a datagram from a sender outside the range never changes the
    store, whatever it says, and the one datagram written back is empty
    or a 403 without key, value or data. *)
Theorem udp_outsider_neither_writes_nor_reads ac now data clientAddr st :
  udp_denied ac clientAddr = true →
  (serveDatagram now data clientAddr st ac).1 = st
  ∧ ∃ payload,
      (serveDatagram now data clientAddr st ac).2 = [WriteToUDP payload clientAddr]
      ∧ ∀ resp, payload = Some resp →
          Status resp = StatusForbidden
          ∧ Key resp = "" ∧ Value resp = "" ∧ Data resp = None.
Proof.
  intros Hout. unfold serveDatagram.
  rewrite udp_denied_outcome by done.
  repeat case_match; simplify_eq; simpl; (split; [done|]);
    eexists; (split; [done|]); intros resp [= <-]; auto.
Qed.

(** X8: on the three reading routes every method but GET, and on
    /api/set every method but POST and PUT, is answered 405 without a
    look at the parameters or the store. Method names are compared as
    they are: [get] is not GET. *)
Theorem method_gate ac now r st :
  http_admitted ac r = true →
  (Path r = "/api/ping" ∨ Path r = "/api/status" ∨ Path r = "/api/get")
  ∧ Method r ≠ "GET"
  ∨ Path r = "/api/set" ∧ Method r ≠ "POST" ∧ Method r ≠ "PUT" →
  handler ac now r st =
    (st, Written StatusMethodNotAllowed
           (mkAPIResponse StatusMethodNotAllowed "Method not allowed" "" "" None now)).
Proof.
  intros Hin Hcase. rewrite routed_admitted by done.
  unfold pingHandler, statusHandler, getHandler, setHandler.
  destruct Hcase as [[Hpath Hm] | (-> & Hpost & Hput)].
  - apply String.eqb_neq in Hm. rewrite Hm.
    destruct Hpath as [-> | [-> | ->]]; reflexivity.
  - apply String.eqb_neq in Hpost, Hput. rewrite Hpost, Hput. reflexivity.
Qed.

(** The answer 200 of /api/set. *)
Lemma setHandler_cases now r st :
  let k := query_get "k" (Query r) in
  let v := query_get "v" (Query r) in
  (setHandler now r st).1 = st
  ∧ (∀ body, (setHandler now r st).2 ≠ Written StatusOK body)
  ∨ (Method r = "POST" ∨ Method r = "PUT") ∧ k ≠ "" ∧ v ≠ ""
    ∧ Store.Set_ k v st = (<[k := v]> st, None)
    ∧ setHandler now r st =
        (<[k := v]> st,
         Written StatusOK (mkAPIResponse StatusOK "Key set successfully" k v None now)).
Proof.
  intros k v. unfold setHandler. fold k v.
  destruct (String.eqb_spec (Method r) "POST") as [Hpost|Hpost];
    destruct (String.eqb_spec (Method r) "PUT") as [Hput|Hput]; simpl;
    try (left; split; [done|]; intros body; discriminate).
  all: destruct (String.eqb_spec k "") as [Hk|Hk];
    [left; split; [done|]; intros body; discriminate|].
  all: destruct (String.eqb_spec v "") as [Hv|Hv];
    [left; split; [done|]; intros body; discriminate|].
  all: destruct (StoreFacts.Set_spec k v st);
    try (left; split; [done|]; intros body; discriminate).
  all: right; split_and!; auto.
  all: unfold sendJSONResponse; simpl; by rewrite (proj2 (String.eqb_neq _ _) Hk).
Qed.

(** X9: an HTTP request changes the store only as an admitted POST or
    PUT to /api/set with parameters [k] and [v] both non-empty that
    [Set_] accepts; the store then gains exactly that pair and the
    answer is the 200 that echoes it. Every other request, answered or
    not, leaves the store as it was. *)
Theorem store_changes_only_by_set ac now r st :
  (handler ac now r st).1 = st
  ∨ Path r = "/api/set" ∧ (Method r = "POST" ∨ Method r = "PUT")
    ∧ http_admitted ac r = true
    ∧ query_get "k" (Query r) ≠ "" ∧ query_get "v" (Query r) ≠ ""
    ∧ handler ac now r st =
        (<[query_get "k" (Query r) := query_get "v" (Query r)]> st,
         Written StatusOK
           (mkAPIResponse StatusOK "Key set successfully"
              (query_get "k" (Query r)) (query_get "v" (Query r)) None now)).
Proof.
  destruct (http_admitted ac r) eqn:Hin.
  - rewrite routed_admitted by done.
    unfold pingHandler, statusHandler, getHandler, notFoundHandler.
    destruct (String.eqb_spec (Path r) "/api/set") as [Hset|Hset].
    + rewrite Hset. simpl.
      destruct (setHandler_cases now r st) as [[Hst _] | (Hm & Hk & Hv & _ & Heq)];
        [by left|right; by rewrite Heq].
    + left. repeat case_match; done.
  - left. by apply refused_keeps_store.
Qed.

End HandlerExtras.

Section TransportExtras.
Context {lib : GoLib}.
Implicit Types (ac : AccessControl) (st : gmap string string) (r : Request).

Lemma middleware_codes ac (next : HandlerFunc) now r st code body :
  (accessMiddleware ac next now r st).2 = Written code body →
  code = StatusForbidden ∨ code = StatusInternalServerError
  ∨ (next now r st).2 = Written code body.
Proof.
  unfold accessMiddleware.
  repeat case_match; simpl; auto; try discriminate; intros [= <- _]; auto.
Qed.

Lemma http_codes ac now r st code body :
  (handler ac now r st).2 = Written code body →
  code = StatusOK ∨ code = StatusBadRequest ∨ code = StatusForbidden
  ∨ code = StatusNotFound ∨ code = StatusMethodNotAllowed
  ∨ code = StatusInternalServerError.
Proof.
  assert (Hsend : ∀ st' status message key value data,
            (st', sendJSONResponse now status message key value data).2
              = Written code body → code = status)
    by (by intros ?????? [= <- _]).
  unfold handler, mux_Handler.
  repeat case_match; simplify_eq; intros Hw;
    try (apply middleware_codes in Hw as [?|[?|Hw]]; [auto 10|auto 10|]);
    revert Hw;
    unfold pingHandler, statusHandler, getHandler, setHandler, notFoundHandler;
    repeat case_match; intros Hw; apply Hsend in Hw; auto 10.
Qed.

Lemma udp_codes ac now command addr st resp :
  (handleUDPCommand now command addr st ac).2 = Some resp →
  Status resp = StatusOK ∨ Status resp = StatusBadRequest
  ∨ Status resp = StatusForbidden ∨ Status resp = StatusNotFound.
Proof.
  unfold handleUDPCommand, udpResponse.
  repeat case_match; simplify_eq; simpl; try discriminate;
    intros [= <-]; auto 10.
Qed.


(** X11: the round trip over HTTP. When a request to /api/set is
    answered 200, an admitted GET of /api/get for the same key, served
    next, is answered 200 with that key and the value that was sent,
    and changes nothing. *)
Theorem http_set_then_get ac now now' r r' st st1 body :
  Path r = "/api/set" →
  handler ac now r st = (st1, Written StatusOK body) →
  Path r' = "/api/get" → Method r' = "GET" → http_admitted ac r' = true →
  query_get "k" (Query r') = query_get "k" (Query r) →
  handler ac now' r' st1 =
    (st1, Written StatusOK
            (mkAPIResponse StatusOK "Key retrieved successfully"
               (query_get "k" (Query r)) (query_get "v" (Query r)) None now')).
Proof.
  intros Hpath Hset Hpath' Hmethod' Hin' Hkey.
  assert (Hst1 : st1 = <[query_get "k" (Query r) := query_get "v" (Query r)]> st
                 ∧ query_get "k" (Query r) ≠ "").
  { destruct (http_admitted ac r) eqn:Hin.
    - rewrite routed_admitted, Hpath in Hset by done. simpl in Hset.
      destruct (setHandler_cases now r st) as [[_ Hno] | (_ & Hk & _ & _ & Heq)].
      + exfalso. apply (Hno body). by rewrite Hset.
      + rewrite Heq in Hset. by injection Hset as <- _.
    - destruct (refused_keeps_store ac now r st Hin) as [_ Hno].
      exfalso. apply (Hno body). by rewrite Hset. }
  destruct Hst1 as [-> Hk].
  rewrite routed_admitted, Hpath' by done. simpl.
  unfold getHandler. rewrite Hmethod', Hkey. simpl.
  rewrite (proj2 (String.eqb_neq _ _) Hk).
  unfold Store.Get. rewrite lookup_insert_eq. simpl.
  unfold sendJSONResponse. simpl. by rewrite (proj2 (String.eqb_neq _ _) Hk).
Qed.

(** X12: GET is the same command on both transports. For a key that is
    not empty and senders that pass the filter, the UDP command and the
    HTTP request leave the store alone and agree on status, message and
    value; on a hit the two responses are equal field by field, on a
    miss only the UDP response names the key. *)
Theorem get_agrees_across_transports ac now command addr r st verb key rest :
  Fields command = verb :: key :: rest → ToUpper verb = "GET" →
  udp_denied ac addr = false →
  Path r = "/api/get" → Method r = "GET" → http_admitted ac r = true →
  query_get "k" (Query r) = key → key ≠ "" →
  ∃ u h,
    handleUDPCommand now command addr st ac = (st, Some u)
    ∧ handler ac now r st = (st, Written (Status u) h)
    ∧ Status h = Status u ∧ Message h = Message u ∧ Value h = Value u
    ∧ (Status u = StatusOK → h = u)
    ∧ (Status u ≠ StatusOK → Key u = key ∧ Key h = "").
Proof.
  intros Hparts Hverb Hudp Hpath Hmethod Hin Hk Hne.
  rewrite routed_admitted, Hpath by done. simpl.
  unfold getHandler. rewrite Hmethod, Hk. simpl.
  rewrite (proj2 (String.eqb_neq _ _) Hne).
  unfold handleUDPCommand. unfold udp_denied in Hudp. rewrite Hudp, Hparts.
  replace (Z.of_nat (length (verb :: key :: rest)) =? 0) with false
    by (symmetry; apply Z.eqb_neq; simpl length; lia).
  replace (Z.of_nat (length (verb :: key :: rest)) <? 2) with false
    by (symmetry; apply Z.ltb_ge; simpl length; lia).
  simpl nth. rewrite Hverb. simpl.
  unfold Store.Get, sendJSONResponse, udpResponse.
  destruct (st !! key) as [value|]; simpl.
  - rewrite (proj2 (String.eqb_neq _ _) Hne). simpl.
    eexists _, _. split_and!; try reflexivity; done.
  - eexists _, _. split_and!; try reflexivity; done.
Qed.

(** X13: SET is the same command on both transports. When the HTTP
    parameters are the key and the joined value of the UDP command,
    both non-empty, and both senders pass the filter, the two leave the
    same store and agree on status and message; on success the two
    responses are equal field by field, on a refusal the store is
    unchanged and only the UDP response names the key. *)
Theorem set_agrees_across_transports ac now command addr r st verb key t rest :
  Fields command = verb :: key :: t :: rest → ToUpper verb = "SET" →
  udp_denied ac addr = false →
  Path r = "/api/set" → Method r = "POST" ∨ Method r = "PUT" →
  http_admitted ac r = true →
  query_get "k" (Query r) = key → query_get "v" (Query r) = Join (t :: rest) " " →
  key ≠ "" → Join (t :: rest) " " ≠ "" →
  ∃ st' u h,
    handleUDPCommand now command addr st ac = (st', Some u)
    ∧ handler ac now r st = (st', Written (Status u) h)
    ∧ Status h = Status u ∧ Message h = Message u
    ∧ (Status u = StatusOK → h = u)
    ∧ (Status u ≠ StatusOK → st' = st ∧ Key u = key ∧ Key h = "").
Proof.
  intros Hparts Hverb Hudp Hpath Hmethod Hin Hk Hv Hkne Hvne.
  rewrite (udp_set_admitted ac now command addr st verb key t rest) by done.
  remember (Join (t :: rest) " ") as value eqn:Hvalue in *. clear Hvalue.
  rewrite routed_admitted, Hpath by done. simpl.
  unfold setHandler. rewrite Hk, Hv.
  replace (negb (String.eqb (Method r) "POST") && negb (String.eqb (Method r) "PUT"))
    with false by (destruct Hmethod as [-> | ->]; reflexivity).
  rewrite (proj2 (String.eqb_neq _ _) Hkne), (proj2 (String.eqb_neq _ _) Hvne).
  unfold sendJSONResponse.
  destruct (StoreFacts.Set_spec key value st); simpl.
  1-3: eexists _, _, _; split_and!; try reflexivity; done.
  rewrite (proj2 (String.eqb_neq _ _) Hkne). simpl.
  eexists _, _, _. split_and!; try reflexivity; done.
Qed.

End TransportExtras.

Section CommandExtras.
Context {lib : GoLib}.
Implicit Types (ac : AccessControl) (st : gmap string string) (r : Request).

(** X14: the UDP commands that are refused before the store is
    touched, for a sender that passes the filter: no token at all, GET
    or SET without a key, SET without a value, and a first token that
    is none of the four verbs. Each is answered 400 with its own
    message, the unknown verb in upper case, and the store is left as
    it was. *)
Theorem udp_malformed_commands ac now command addr st :
  udp_denied ac addr = false →
  let refused message :=
    handleUDPCommand now command addr st ac
    = (st, Some (mkAPIResponse StatusBadRequest message "" "" None now)) in
  (Fields command = [] → refused "Empty command")
  ∧ (∀ verb, Fields command = [verb] →
       ToUpper verb = "GET" ∨ ToUpper verb = "SET" →
       refused "Missing key parameter")
  ∧ (∀ verb key, Fields command = [verb; key] → ToUpper verb = "SET" →
       refused "Missing value parameter")
  ∧ (∀ verb rest, Fields command = verb :: rest →
       ToUpper verb ≠ "PING" → ToUpper verb ≠ "STATUS" →
       ToUpper verb ≠ "GET" → ToUpper verb ≠ "SET" →
       refused ("Unknown command: " ++ ToUpper verb)).
Proof.
  intros Hin refused. subst refused. simpl.
  unfold handleUDPCommand. unfold udp_denied in Hin. rewrite Hin.
  split_and!.
  - by intros ->.
  - intros verb -> [Hv | Hv]; simpl; by rewrite Hv.
  - intros verb key -> Hv; simpl; by rewrite Hv.
  - intros verb rest -> Hping Hstatus Hget Hset.
    replace (Z.of_nat (length (verb :: rest)) =? 0) with false
      by (symmetry; apply Z.eqb_neq; simpl length; lia).
    simpl nth.
    apply String.eqb_neq in Hping, Hstatus, Hget, Hset.
    by rewrite Hping, Hstatus, Hget, Hset.
Qed.

(** X15: tokens that a UDP command has no use for are ignored without
    an error. PING and STATUS are answered whatever follows the verb,
    and GET reads the first token after the verb as the key and drops
    the rest: the answer is that of the command cut after the key. *)
Theorem udp_extra_tokens_ignored ac now command command' addr st verb :
  (∀ rest, Fields command = verb :: rest → Fields command' = [verb] →
     ToUpper verb = "PING" ∨ ToUpper verb = "STATUS" →
     handleUDPCommand now command addr st ac
     = handleUDPCommand now command' addr st ac)
  ∧ (∀ key rest, Fields command = verb :: key :: rest →
       Fields command' = [verb; key] → ToUpper verb = "GET" →
       handleUDPCommand now command addr st ac
       = handleUDPCommand now command' addr st ac).
Proof.
  unfold handleUDPCommand. split.
  - intros rest -> -> Hv.
    replace (Z.of_nat (length (verb :: rest)) =? 0) with false
      by (symmetry; apply Z.eqb_neq; simpl length; lia).
    simpl nth. simpl length.
    destruct Hv as [Hv | Hv]; rewrite Hv; reflexivity.
  - intros key rest -> -> Hv.
    replace (Z.of_nat (length (verb :: key :: rest)) =? 0) with false
      by (symmetry; apply Z.eqb_neq; simpl length; lia).
    replace (Z.of_nat (length (verb :: key :: rest)) <? 2) with false
      by (symmetry; apply Z.ltb_ge; simpl length; lia).
    simpl nth. simpl length. rewrite Hv. reflexivity.
Qed.

(** What one datagram and one request do to the store is what one store
    operation does. *)
Lemma udp_is_a_store_step ac now command addr st :
  ∃ o, (handleUDPCommand now command addr st ac).1 = Store.step o st.
Proof.
  unfold handleUDPCommand.
  repeat case_match; simplify_eq; simpl;
    try (by exists Store.OpStatus).
  all: match goal with
       | H : Store.Set_ ?k ?v _ = _ |- _ =>
           exists (Store.OpSet k v); simpl; by rewrite H
       end.
Qed.

Lemma http_is_a_store_step ac now r st :
  ∃ o, (handler ac now r st).1 = Store.step o st.
Proof.
  destruct (http_admitted ac r) eqn:Hin.
  - rewrite routed_admitted by done.
    unfold pingHandler, statusHandler, getHandler, notFoundHandler.
    repeat case_match; try (by exists Store.OpStatus).
    destruct (setHandler_cases now r st) as [[Hst _] | (_ & _ & _ & Hset & Heq)].
    + by exists Store.OpStatus.
    + exists (Store.OpSet (query_get "k" (Query r)) (query_get "v" (Query r))).
      rewrite Heq. simpl. by rewrite Hset.
  - exists Store.OpStatus. by apply refused_keeps_store.
Qed.

(** X16: the loop of the UDP server, over every sequence of datagrams
    from the empty store. It writes exactly one datagram for each one it
    reads, to the sender of that one and in the same order; the store it
    holds is one that as many store operations reach, so it keeps the
    bounds on keys, values and count. *)
Theorem udp_loop_invariants ac (inbox : list (string * string * string)) :
  let out := serveDatagrams inbox Store.NewKeyValueStore ac in
  Forall2 (λ written read, ∃ payload, written = WriteToUDP payload read.2)
          out.2 inbox
  ∧ (∃ ops, length ops = length inbox
            ∧ out.1 = Store.run ops Store.NewKeyValueStore)
  ∧ Store.bounded out.1.
Proof.
  intros out. subst out.
  assert (Hgen : ∀ st,
    Forall2 (λ written read, ∃ payload, written = WriteToUDP payload read.2)
            (serveDatagrams inbox st ac).2 inbox
    ∧ ∃ ops, length ops = length inbox
             ∧ (serveDatagrams inbox st ac).1 = Store.run ops st).
  { induction inbox as [|[[now data] clientAddr] inbox IH]; intros st; simpl.
    - split; [constructor|]. by exists [].
    - unfold serveDatagram.
      destruct (udp_is_a_store_step ac now (TrimSpace
                  (String.substring 0 (Z.to_nat 8192) data)) clientAddr st)
        as [o Ho].
      destruct (handleUDPCommand _ _ _ _ _) as [st1 response]. simpl in Ho.
      destruct (IH st1) as [Hwritten (ops & Hlen & Hrun)].
      destruct (serveDatagrams inbox st1 ac) as [st2 written]. simpl in *.
      split.
      + constructor; [by eexists|done].
      + exists (o :: ops). simpl. split; [by rewrite Hlen|].
        by rewrite Hrun, Ho. }
  destruct (Hgen Store.NewKeyValueStore) as [Hwritten (ops & Hlen & Hrun)].
  split_and!; [done|by exists ops|].
  rewrite Hrun. apply StoreFacts.run_bounded, StoreFacts.empty_bounded.
Qed.

(** X17: the HTTP server, over every sequence of requests from the
    empty store: one result per request, and a store that as many store
    operations reach, so one that keeps the bounds on keys, values and
    count, whoever sends whatever. *)
Theorem http_server_invariants ac (inbox : list (string * Request)) :
  let out := serveRequests ac inbox Store.NewKeyValueStore in
  length out.2 = length inbox
  ∧ (∃ ops, length ops = length inbox
            ∧ out.1 = Store.run ops Store.NewKeyValueStore)
  ∧ Store.bounded out.1.
Proof.
  intros out. subst out.
  assert (Hgen : ∀ st,
    length (serveRequests ac inbox st).2 = length inbox
    ∧ ∃ ops, length ops = length inbox
             ∧ (serveRequests ac inbox st).1 = Store.run ops st).
  { induction inbox as [|[now r] inbox IH]; intros st; simpl.
    - split; [done|]. by exists [].
    - destruct (http_is_a_store_step ac now r st) as [o Ho].
      destruct (handler ac now r st) as [st1 result]. simpl in Ho.
      destruct (IH st1) as [Hresults (ops & Hlen & Hrun)].
      destruct (serveRequests ac inbox st1) as [st2 results]. simpl in *.
      split; [by rewrite Hresults|].
      exists (o :: ops). simpl. split; [by rewrite Hlen|].
      by rewrite Hrun, Ho. }
  destruct (Hgen Store.NewKeyValueStore) as [Hresults (ops & Hlen & Hrun)].
  split_and!; [done|by exists ops|].
  rewrite Hrun. apply StoreFacts.run_bounded, StoreFacts.empty_bounded.
Qed.

End CommandExtras.

(** * Start-up and client *)

Section StartupExtras.
Context {lib : GoLib}.
Implicit Types (ac : AccessControl) (st : gmap string string) (r : Request).


(** X19: the client's SET over HTTP never reaches the store. The client
    sends key and value as a form in the body of a POST, with nothing in
    the URL, and the server reads the parameters off the URL only: the
    store is unchanged, and a sender that passes the filter is told 400
    "Missing key parameter" whatever key and value were given. *)
Theorem client_http_set_is_refused ac now opts key value remoteAddr r st :
  Client.Protocol opts = "http" →
  Client.arrives (Client.set opts key value) remoteAddr = Some r →
  (handler ac now r st).1 = st
  ∧ (http_admitted ac r = true →
     (handler ac now r st).2 =
       Written StatusBadRequest
         (mkAPIResponse StatusBadRequest "Missing key parameter" "" "" None now)).
Proof.
  intros Hproto Harr.
  unfold Client.set in Harr. rewrite Hproto in Harr. simpl in Harr.
  injection Harr as <-.
  split.
  - destruct (http_admitted ac (mkRequest "POST" "/api/set" [] remoteAddr)) eqn:Hin.
    + by rewrite routed_admitted.
    + by apply refused_keeps_store.
  - intros Hin. by rewrite routed_admitted.
Qed.

(** X20: the client's GET over HTTP, end to end. For a key that is not
    empty and a sender that passes the filter, the request the client
    builds is answered 200 with the key and its value when the store
    holds the key, and 404 with the message naming the key when it does
    not; the store is unchanged. *)
Theorem client_http_get_is_served ac now opts key remoteAddr r st :
  Client.Protocol opts = "http" →
  Client.arrives (Client.get opts key) remoteAddr = Some r →
  http_admitted ac r = true → key ≠ "" →
  handler ac now r st =
    match st !! key with
    | Some value =>
        (st, Written StatusOK
               (mkAPIResponse StatusOK "Key retrieved successfully" key value None now))
    | None =>
        (st, Written StatusNotFound
               (mkAPIResponse StatusNotFound ("Key '" ++ key ++ "' not found")
                  "" "" None now))
    end.
Proof.
  intros Hproto Harr Hin Hne.
  unfold Client.get in Harr. rewrite Hproto in Harr. simpl in Harr.
  injection Harr as <-.
  rewrite routed_admitted by done. simpl.
  unfold getHandler. simpl.
  rewrite (proj2 (String.eqb_neq _ _) Hne).
  unfold Store.Get, sendJSONResponse.
  destruct (st !! key); simpl; [|done].
  by rewrite (proj2 (String.eqb_neq _ _) Hne).
Qed.

(** X21: when the client sends anything, its flags and arguments were
    in order and the command is well formed: the protocol is http or
    udp, the port is between 1 and 65535, and the first argument is,
    in any case, PING, STATUS, GET followed by a key (further arguments
    are dropped) or SET followed by a key and at least one more
    argument, the value being those arguments joined by single spaces. *)
Theorem client_sends_only_well_formed (protocol host : string) (port timeout : Z)
    (args : list string) (s : Client.Sent) :
  Client.main protocol host port timeout false args = Client.Sends s →
  let opts := Client.mkOptions host port protocol timeout in
  (protocol = "http" ∨ protocol = "udp") ∧ 1 ≤ port ≤ 65535
  ∧ ∃ verb rest, args = verb :: rest
    ∧ (ToUpper verb = "PING" ∧ s = Client.ping opts
       ∨ ToUpper verb = "STATUS" ∧ s = Client.status opts
       ∨ ToUpper verb = "GET"
         ∧ (∃ key rest', rest = key :: rest' ∧ s = Client.get opts key)
       ∨ ToUpper verb = "SET"
         ∧ (∃ key v vs, rest = key :: v :: vs
                        ∧ s = Client.set opts key (Join (v :: vs) " "))).
Proof.
  assert (Hlen1 : ∀ (x : string) l, (Z.of_nat (length (x :: l)) <? 1) = false)
    by (intros; apply Z.ltb_ge; simpl length; lia).
  assert (Hlen2 : ∀ (x y : string) l, (Z.of_nat (length (x :: y :: l)) <? 2) = false)
    by (intros; apply Z.ltb_ge; simpl length; lia).
  unfold Client.main.
  destruct (String.eqb_spec protocol "http") as [Hhttp|Hhttp];
    destruct (String.eqb_spec protocol "udp") as [Hudp|Hudp];
    cbn [negb andb]; try discriminate.
  all: destruct (Z.ltb_spec port 1); cbn [orb]; try discriminate.
  all: destruct (Z.ltb_spec 65535 port); try discriminate.
  all: destruct args as [|verb rest]; [discriminate|].
  all: rewrite Hlen1; cbn [nth drop]; rewrite ?drop_0.
  all: intros Hs.
  all: split; [auto|]; split; [lia|]; exists verb, rest; split; [done|].
  all: destruct (String.eqb_spec (ToUpper verb) "PING") as [Hping|_];
    [left; split; [done|]; congruence|].
  all: destruct (String.eqb_spec (ToUpper verb) "STATUS") as [Hstatus|_];
    [right; left; split; [done|]; congruence|].
  all: destruct (String.eqb_spec (ToUpper verb) "GET") as [Hget|_].
  all: try (right; right; left; split; [done|];
            destruct rest as [|key rest']; [discriminate|];
            rewrite Hlen1 in Hs; cbn [nth] in Hs; exists key, rest';
            split; [done|congruence]).
  all: destruct (String.eqb_spec (ToUpper verb) "SET") as [Hset|_];
    [|discriminate].
  all: right; right; right; split; [done|].
  all: destruct rest as [|key [|v vs]]; try discriminate.
  all: rewrite Hlen2 in Hs; cbn [nth drop] in Hs; rewrite ?drop_0 in Hs;
    exists key, v, vs.
  all: split; [done|congruence].
Qed.

(** X22: how the client labels what the server sends. Every HTTP answer
    of the server prints as OK (200), CLIENT ERROR (400, 403, 404, 405)
    or SERVER ERROR (500), and every UDP answer as OK or CLIENT ERROR;
    the labels REDIRECT and UNKNOWN are never used for this server. *)
Theorem client_labels_server_answers ac now :
  (∀ r st code body,
     (handler ac now r st).2 = Written code body →
     Client.statusText (Status body) =
       if Status body =? StatusOK then "OK"
       else if Status body =? StatusInternalServerError then "SERVER ERROR"
       else "CLIENT ERROR")
  ∧ (∀ command addr st resp,
       (handleUDPCommand now command addr st ac).2 = Some resp →
       Client.statusText (Status resp) =
         if Status resp =? StatusOK then "OK" else "CLIENT ERROR").
Proof.
  split.
  - intros r st code body Hw.
    assert (Hcode : Status body = code)
      by (symmetry; by apply (http_population ac now r st code body)).
    apply http_codes in Hw. rewrite Hcode.
    destruct Hw as [-> | [-> | [-> | [-> | [-> | ->]]]]]; reflexivity.
  - intros command addr st resp Hw. apply udp_codes in Hw.
    destruct Hw as [-> | [-> | [-> | ->]]]; reflexivity.
Qed.

End StartupExtras.

(** * Instances on concrete requests *)

Module Instances.


(** An outsider's SET datagram under REJECT leaves the empty store
    empty. *)
Lemma outsider_datagram_leaves_store :
  (@serveDatagram Plain.lib "t" "SET a b" "10.0.0.1:5000" ∅ (Plain.policy "REJECT")).1
  = ∅.
Proof.
  apply (@udp_outsider_neither_writes_nor_reads Plain.lib (Plain.policy "REJECT")
           "t" "SET a b" "10.0.0.1:5000" ∅).
  by vm_compute.
Defined.

(** DELETE on /api/get is answered 405. *)
Lemma delete_on_get_is_405 :
  @handler Plain.lib Plain.open_policy "t"
    (mkRequest "DELETE" "/api/get" [("k", "a")] Sample.from_outside) ∅
  = (∅, Written StatusMethodNotAllowed
          (mkAPIResponse StatusMethodNotAllowed "Method not allowed" "" "" None "t")).
Proof.
  apply (@method_gate Plain.lib Plain.open_policy "t"
           (mkRequest "DELETE" "/api/get" [("k", "a")] Sample.from_outside) ∅).
  - reflexivity.
  - left. split; [auto|discriminate].
Defined.

(** PUT /api/set?k=a&v=hello, then GET /api/get?k=a. *)
Lemma put_then_get_a :
  @handler Plain.lib Plain.open_policy "t2"
    (mkRequest "GET" "/api/get" [("k", "a")] Sample.from_outside)
    (<["a" := "hello"]> ∅)
  = (<["a" := "hello"]> ∅,
     Written StatusOK
       (mkAPIResponse StatusOK "Key retrieved successfully" "a" "hello" None "t2")).
Proof.
  apply (@http_set_then_get Plain.lib Plain.open_policy "t1" "t2"
           (mkRequest "PUT" "/api/set" [("k", "a"); ("v", "hello")] Sample.from_outside)
           (mkRequest "GET" "/api/get" [("k", "a")] Sample.from_outside)
           ∅ (<["a" := "hello"]> ∅)
           (mkAPIResponse StatusOK "Key set successfully" "a" "hello" None "t1"));
    by vm_compute.
Defined.

(** [GET a] by datagram and GET /api/get?k=a agree on the store that
    holds [a]. *)
Lemma get_a_on_both_transports :
  ∃ u h,
    @handleUDPCommand Plain.lib "t" "GET a" "10.0.0.1:5000"
      (<["a" := "hello"]> ∅) Plain.open_policy = (<["a" := "hello"]> ∅, Some u)
    ∧ @handler Plain.lib Plain.open_policy "t"
        (mkRequest "GET" "/api/get" [("k", "a")] Sample.from_outside)
        (<["a" := "hello"]> ∅)
      = (<["a" := "hello"]> ∅, Written (Status u) h)
    ∧ Status h = Status u ∧ Message h = Message u ∧ Value h = Value u.
Proof.
  destruct (@get_agrees_across_transports Plain.lib Plain.open_policy "t" "GET a"
              "10.0.0.1:5000"
              (mkRequest "GET" "/api/get" [("k", "a")] Sample.from_outside)
              (<["a" := "hello"]> ∅) "GET" "a" [])
    as (u & h & Hu & Hh & Hs & Hm & Hv & _); try by vm_compute.
  exists u, h. auto.
Defined.

(** [SET a b c] by datagram and POST /api/set?k=a&v=b+c agree on the
    empty store. *)
Lemma set_a_on_both_transports :
  ∃ st' u h,
    @handleUDPCommand Plain.lib "t" "SET a b c" "10.0.0.1:5000" ∅ Plain.open_policy
      = (st', Some u)
    ∧ @handler Plain.lib Plain.open_policy "t"
        (mkRequest "POST" "/api/set" [("k", "a"); ("v", "b c")] Sample.from_outside) ∅
      = (st', Written (Status u) h)
    ∧ Status h = Status u ∧ Message h = Message u.
Proof.
  destruct (@set_agrees_across_transports Plain.lib Plain.open_policy "t" "SET a b c"
              "10.0.0.1:5000"
              (mkRequest "POST" "/api/set" [("k", "a"); ("v", "b c")] Sample.from_outside)
              ∅ "SET" "a" "b" ["c"])
    as (st' & u & h & Hu & Hh & Hs & Hm & _); try by vm_compute.
  - by left.
  - exists st', u, h. auto.
Defined.

(** The datagram [FLUSH] is an unknown command. *)
Lemma flush_is_unknown :
  @handleUDPCommand Plain.lib "t" "flush" "10.0.0.1:5000" ∅ Plain.open_policy
  = (∅, Some (mkAPIResponse StatusBadRequest "Unknown command: FLUSH" "" "" None "t")).
Proof.
  destruct (@udp_malformed_commands Plain.lib Plain.open_policy "t" "flush"
              "10.0.0.1:5000" ∅ eq_refl) as (_ & _ & _ & Hunknown).
  apply (Hunknown "flush" []); [reflexivity|discriminate..].
Defined.

(** [GET a b c] is answered as [GET a]. *)
Lemma get_with_extra_tokens :
  @handleUDPCommand Plain.lib "t" "GET a b c" "10.0.0.1:5000" ∅ Plain.open_policy
  = @handleUDPCommand Plain.lib "t" "GET a" "10.0.0.1:5000" ∅ Plain.open_policy.
Proof.
  apply (proj2 (@udp_extra_tokens_ignored Plain.lib Plain.open_policy "t"
                  "GET a b c" "GET a" "10.0.0.1:5000" ∅ "GET") "a" ["b"; "c"]);
    reflexivity.
Defined.

(** The client's [SET a hello] over HTTP is answered 400 for a missing
    key. *)
Lemma client_set_a_hello_is_refused :
  @handler Plain.lib Plain.open_policy "t"
    (mkRequest "POST" "/api/set" [] Sample.from_outside) ∅
  = (∅, Written StatusBadRequest
          (mkAPIResponse StatusBadRequest "Missing key parameter" "" "" None "t")).
Proof.
  destruct (@client_http_set_is_refused Plain.lib Plain.open_policy "t"
              Sample.http_opts "a" "hello" Sample.from_outside
              (mkRequest "POST" "/api/set" [] Sample.from_outside) ∅
              eq_refl eq_refl) as [Hst Hresp].
  apply injective_projections; [exact Hst|]. by apply Hresp.
Defined.

(** The client's [GET a] over HTTP on the store that holds [a]. *)
Lemma client_get_a_is_served :
  @handler Plain.lib Plain.open_policy "t"
    (mkRequest "GET" "/api/get" [("k", "a")] Sample.from_outside)
    (<["a" := "hello"]> ∅)
  = (<["a" := "hello"]> ∅,
     Written StatusOK
       (mkAPIResponse StatusOK "Key retrieved successfully" "a" "hello" None "t")).
Proof.
  rewrite (@client_http_get_is_served Plain.lib Plain.open_policy "t" Sample.http_opts
             "a" Sample.from_outside
             (mkRequest "GET" "/api/get" [("k", "a")] Sample.from_outside)
             (<["a" := "hello"]> ∅) eq_refl eq_refl eq_refl);
    [reflexivity|discriminate].
Defined.

(** The arguments [set greeting Hello, World!] with the default flags:
    the client sends, so protocol and port were in order. *)
Lemma client_set_greeting :
  @Client.main Plain.lib "http" "localhost" 8080 2000000000 false
    ["set"; "greeting"; "Hello,"; "World!"]
  = Client.Sends (Client.set Sample.http_opts "greeting" "Hello, World!")
  ∧ ("http" = "http" ∨ "http" = "udp") ∧ 1 ≤ 8080 ≤ 65535.
Proof.
  split; [reflexivity|].
  destruct (@client_sends_only_well_formed Plain.lib "http" "localhost" 8080
              2000000000 ["set"; "greeting"; "Hello,"; "World!"]
              (Client.set Sample.http_opts "greeting" "Hello, World!") eq_refl)
    as (Hprotocol & Hport & _).
  split; [exact Hprotocol|exact Hport].
Defined.


End Instances.
